(** * sync.py: a terminal editor glued on prompt_toolkit

    Shallow embedding of [src/sync.py]: the module-level load, the language
    detection, the three key-binding handlers (save, exit, change language)
    and the entry-point guard.

    Conventions.
    - A Python [str] is a [string]; a dialog result or [sys.argv[1]] that may
      be [None] is an [option string]; [truthy] is Python's truth test on it.
    - The dictionaries [EOL_FORMATS] and the extension table of [detect_lang]
      are [gmap string string]; [SUPPORTED_LANGS] is a list, as in the source.
    - Library calls whose result the script cannot determine ([str.lower],
      [str.upper], [get_lexer_by_name]) are the fields of a [runtime]; the
      file system and the user are oracles ([world], the replies carried by an
      [event]).
    - The calls into prompt_toolkit and pygments (running a dialog, reading
      [is_dirty], building a [PygmentsLexer]) are the fields of a [toolkit].
      The handlers are given twice: [key_ctrl_o], [key_ctrl_x], [key_alt_l]
      and [startup] are the script over the interfaces it is written against
      ([assumed_toolkit]: each call returns); the [_with] versions take the
      toolkit as a parameter and follow every call that may raise, and
      [installed_toolkit] is what the libraries do.
    - Calls of dialogs, file writes and the application exit are recorded in
      a trace of [effect]s. *)

From stdpp Require Import base strings list gmap.
From Stdlib Require Import Ascii String.

Local Open Scope string_scope.
Local Open Scope list_scope.

(** ** Characters and strings *)

Definition LF_char : ascii := "010"%char.
Definition CR_char : ascii := "013"%char.
Definition TAB_char : ascii := "009"%char.
Definition FF_char : ascii := "012"%char.

Definition str_LF : string := String LF_char "".
Definition str_CR : string := String CR_char "".
Definition str_CRLF : string := String CR_char (String LF_char "").

(** [s.replace(old, new)] for a non-empty [old]: occurrences are replaced
    from the left and do not overlap.  [skip] counts the characters of the
    occurrence just replaced that are still to be dropped. *)
Fixpoint replace_from (old new : string) (skip : nat) (s : string) : string :=
  match s with
  | "" => ""
  | String c s' =>
      match skip with
      | S k => replace_from old new k s'
      | O =>
          if String.prefix old s
          then new +:+ replace_from old new (String.length old - 1) s'
          else String c (replace_from old new 0 s')
      end
  end.

Definition replace (old new s : string) : string := replace_from old new 0 s.


Fixpoint split_on (c : ascii) (s : string) : list string :=
  match s with
  | "" => [""]
  | String a s' =>
      if Ascii.eqb a c then "" :: split_on c s'
      else match split_on c s' with
           | [] => [String a ""]
           | p :: rest => String a p :: rest
           end
  end.

(** [c in s] for a character. *)
Fixpoint has_char (c : ascii) (s : string) : bool :=
  match s with
  | "" => false
  | String a s' => Ascii.eqb a c || has_char c s'
  end.

(** [s.count(c)] for a character. *)
Fixpoint count_char (c : ascii) (s : string) : nat :=
  match s with
  | "" => 0
  | String a s' => (if Ascii.eqb a c then 1 else 0) + count_char c s'
  end.

(** [s.lstrip(".")] and friends: drop the leading run of [c]. *)
Fixpoint lstrip (c : ascii) (s : string) : string :=
  match s with
  | String a s' => if Ascii.eqb a c then lstrip c s' else s
  | "" => ""
  end.

(** Python truthiness of a value that is [None] or a [str]. *)
Definition truthy (o : option string) : bool :=
  match o with
  | Some s => negb (String.eqb s "")
  | None => false
  end.

(** ** The library boundary *)

Record runtime := {
  lower : string -> string;                    (* str.lower *)
  upper : string -> string;                    (* str.upper *)
  get_lexer_by_name : string -> option string  (* None: ClassNotFound *)
}.

(** ASCII case mapping: what [str.lower] and [str.upper] do on ASCII text. *)
Definition ascii_lower_char (c : ascii) : ascii :=
  let n := nat_of_ascii c in
  if (65 <=? n)%nat && (n <=? 90)%nat then ascii_of_nat (n + 32) else c.

Definition ascii_upper_char (c : ascii) : ascii :=
  let n := nat_of_ascii c in
  if (97 <=? n)%nat && (n <=? 122)%nat then ascii_of_nat (n - 32) else c.

Fixpoint map_string (f : ascii -> ascii) (s : string) : string :=
  match s with
  | "" => ""
  | String c s' => String (f c) (map_string f s')
  end.

Definition ascii_runtime : runtime :=
  {| lower := map_string ascii_lower_char;
     upper := map_string ascii_upper_char;
     get_lexer_by_name := fun n => Some n |}.

(** ** Module-level constants *)

Definition SUPPORTED_LANGS : list string :=
  [ "python"; "javascript"; "typescript"; "html"; "css"; "bash"; "c"; "cpp"; "rust";
    "java"; "go"; "ruby"; "php"; "csharp"; "swift"; "kotlin"; "scala"; "perl"; "lua";
    "haskell"; "elixir"; "r"; "dart"; "sql"; "fortran"; "erlang" ].

Definition EOL_FORMATS : gmap string string :=
  <["unix" := str_LF]> (<["dos" := str_CRLF]> (<["mac" := str_CR]> ∅)).

(** The [x in SUPPORTED_LANGS] and [x in EOL_FORMATS] tests. *)
Definition in_supported (x : string) : bool := bool_decide (x ∈ SUPPORTED_LANGS).
Definition in_eol_formats (x : string) : bool := bool_decide (is_Some (EOL_FORMATS !! x)).

(** ** [os.path.splitext] (posixpath) *)

(** [s.rfind(c)]: the index of the last [c], or -1. *)
Fixpoint rfind_from (c : ascii) (s : string) (i : Z) (found : Z) : Z :=
  match s with
  | "" => found
  | String a s' => rfind_from c s' (i + 1)%Z (if Ascii.eqb a c then i else found)
  end.

Definition rfind (c : ascii) (s : string) : Z := rfind_from c s 0%Z (-1)%Z.

Fixpoint str_drop (n : nat) (s : string) : string :=
  match n, s with
  | S k, String _ s' => str_drop k s'
  | _, _ => s
  end.

Fixpoint str_take (n : nat) (s : string) : string :=
  match n, s with
  | S k, String a s' => String a (str_take k s')
  | _, _ => ""
  end.

(** The loop of [genericpath._splitext] that skips the leading dots of the
    file name: [true] when a character other than the dot is met before
    [dotIndex], the loop running [n] more times from [filenameIndex]. *)
Fixpoint finds_non_dot (p : string) (filenameIndex n : nat) : bool :=
  match n with
  | O => false
  | S k =>
      match String.get filenameIndex p with
      | Some a =>
          if Ascii.eqb a "."%char then finds_non_dot p (S filenameIndex) k else true
      | None => true
      end
  end.

Definition splitext (p : string) : string * string :=
  let sepIndex := rfind "/"%char p in
  let dotIndex := rfind "."%char p in
  if (sepIndex <? dotIndex)%Z then
    let filenameIndex := Z.to_nat (sepIndex + 1) in
    if finds_non_dot p filenameIndex (Z.to_nat dotIndex - filenameIndex)
    then (str_take (Z.to_nat dotIndex) p, str_drop (Z.to_nat dotIndex) p)
    else (p, "")
  else (p, "").

(** ** Language detection *)

Definition EXTENSIONS : gmap string string :=
  list_to_map
    [ ("py", "python"); ("js", "javascript"); ("ts", "typescript");
      ("html", "html"); ("css", "css"); ("c", "c"); ("cpp", "cpp");
      ("cc", "cpp"); ("rs", "rust"); ("java", "java"); ("go", "go");
      ("sh", "bash") ].

(** ** Exceptions and results *)

Inductive exc :=
| TabError (line : nat)           (* inconsistent use of tabs and spaces *)
| IndentationError (line : nat)   (* unindent does not match an outer level *)
| NameError (name : string)
| OSError (path : string)
| TypeError (what : string)       (* the object that is not callable *)
| RuntimeError (what : string)
| AttributeError (attr : string).

(** [str(e)], as far as the script shows it. *)
Definition exc_message (e : exc) : string :=
  match e with
  | TabError _ => "inconsistent use of tabs and spaces in indentation"
  | IndentationError _ => "unindent does not match any outer indentation level"
  | NameError n => "name '" +:+ n +:+ "' is not defined"
  | OSError p => p
  | TypeError w => "'" +:+ w +:+ "' object is not callable"
  | RuntimeError w => w
  | AttributeError a => "'Document' object has no attribute '" +:+ a +:+ "'"
  end.

Inductive result (A : Type) :=
| Ok (a : A)
| Raise (e : exc).

Arguments Ok {A} a.
Arguments Raise {A} e.

(** ** Compiling the file: the tokenizer's indentation check

    Python measures the leading white space of every logical line twice,
    with tabs going to the next multiple of 8 and with tabs worth one
    column, and keeps a stack of both measures.  A line whose two measures
    disagree about its relation to the enclosing block is rejected with
    [TabError] before any statement of the file runs. *)

Fixpoint indent_cols (ws : string) (col altcol : nat) : nat * nat :=
  match ws with
  | "" => (col, altcol)
  | String c ws' =>
      if Ascii.eqb c " "%char then indent_cols ws' (S col) (S altcol)
      else if Ascii.eqb c TAB_char then indent_cols ws' ((col / 8 + 1) * 8)%nat (S altcol)
      else if Ascii.eqb c FF_char then indent_cols ws' 0 0
      else (col, altcol)
  end.

Fixpoint pop_deeper (col : nat) (stack : list (nat * nat)) : list (nat * nat) :=
  match stack with
  | (c, a) :: ((_ :: _) as below) => if (col <? c)%nat then pop_deeper col below else stack
  | _ => stack
  end.

Definition indent_step (stack : list (nat * nat)) (line : nat * string)
  : result (list (nat * nat)) :=
  let '(col, altcol) := indent_cols line.2 0 0 in
  let '(c, a) := default (0, 0) (head stack) in
  if (col =? c)%nat then
    if (altcol =? a)%nat then Ok stack else Raise (TabError line.1)
  else if (c <? col)%nat then
    if (altcol <=? a)%nat then Raise (TabError line.1) else Ok ((col, altcol) :: stack)
  else
    let stack' := pop_deeper col stack in
    let '(c', a') := default (0, 0) (head stack') in
    if negb (col =? c')%nat then Raise (IndentationError line.1)
    else if (altcol =? a')%nat then Ok stack' else Raise (TabError line.1).

Fixpoint check_indentation (stack : list (nat * nat)) (lines : list (nat * string))
  : option exc :=
  match lines with
  | [] => None
  | l :: rest =>
      match indent_step stack l with
      | Ok stack' => check_indentation stack' rest
      | Raise e => Some e
      end
  end.

Definition str_TAB : string := String TAB_char "".

(** The logical lines of [sync.py]: line number and leading white space.
    Blank lines, comment lines and the continuation lines of brackets and
    of the docstring start no logical line. *)
Definition sync_py_lines : list (nat * string) :=
  [ (2, ""); (7, ""); (8, ""); (9, ""); (10, ""); (11, ""); (12, ""); (13, "");
    (14, ""); (15, ""); (16, ""); (17, ""); (20, ""); (27, ""); (33, ""); (34, "");
    (35, ""); (36, "    "); (37, "        ");
    (40, ""); (41, "    "); (42, "        "); (43, "    "); (44, "    ");
    (59, ""); (60, "    "); (61, "        "); (62, "    "); (63, "        ");
    (65, ""); (66, ""); (69, ""); (74, "");
    (77, ""); (78, "    "); (79, "    "); (80, "    ");
    (82, ""); (85, "");
    (87, ""); (88, ""); (89, "    "); (90, "    "); (91, "    "); (92, "        ");
    (93, "        "); (94, "            "); (95, "        "); (97, "    ");
    (102, "    "); (103, "        "); (105, "    "); (106, "        ");
    (107, "        "); (108, "            "); (109, "        "); (110, "    ");
    (111, "        ");
    (113, ""); (114, ""); (115, "    "); (116, "    "); (117, "        ");
    (118, "        "); (119, "            "); (120, "    ");
    (122, ""); (123, ""); (124, "    "); (125, "    "); (126, "    ");
    (127, "        "); (128, "    "); (129, "    "); (130, "        ");
    (131, "        "); (132, "        "); (133, "    "); (134, str_TAB);
    (137, ""); (138, ""); (141, ""); (149, ""); (150, "    "); (152, "");
    (153, "    ") ].

Definition compile_error (lines : list (nat * string)) : option exc :=
  check_indentation [(0, 0)] lines.

(** ** Name lookup at module level *)

Inductive pyval :=
| PNone
| PStr (s : string)
| PObj (kind : string).

#[export] Instance pyval_eq_dec : EqDecision pyval.
Proof. solve_decision. Defined.

Definition builtin_names : list string :=
  [ "ArithmeticError"; "AssertionError"; "AttributeError"; "BaseException";
    "BaseExceptionGroup"; "BlockingIOError"; "BrokenPipeError"; "BufferError";
    "BytesWarning"; "ChildProcessError"; "ConnectionAbortedError"; "ConnectionError";
    "ConnectionRefusedError"; "ConnectionResetError"; "DeprecationWarning"; "EOFError";
    "Ellipsis"; "EncodingWarning"; "EnvironmentError"; "Exception"; "ExceptionGroup";
    "False"; "FileExistsError"; "FileNotFoundError"; "FloatingPointError";
    "FutureWarning"; "GeneratorExit"; "IOError"; "ImportError"; "ImportWarning";
    "IndentationError"; "IndexError"; "InterruptedError"; "IsADirectoryError";
    "KeyError"; "KeyboardInterrupt"; "LookupError"; "MemoryError";
    "ModuleNotFoundError"; "NameError"; "None"; "NotADirectoryError"; "NotImplemented";
    "NotImplementedError"; "OSError"; "OverflowError"; "PendingDeprecationWarning";
    "PermissionError"; "ProcessLookupError"; "RecursionError"; "ReferenceError";
    "ResourceWarning"; "RuntimeError"; "RuntimeWarning"; "StopAsyncIteration";
    "StopIteration"; "SyntaxError"; "SyntaxWarning"; "SystemError"; "SystemExit";
    "TabError"; "TimeoutError"; "True"; "TypeError"; "UnboundLocalError";
    "UnicodeDecodeError"; "UnicodeEncodeError"; "UnicodeError";
    "UnicodeTranslateError"; "UnicodeWarning"; "UserWarning"; "ValueError"; "Warning";
    "ZeroDivisionError"; "__build_class__"; "__debug__"; "__doc__"; "__import__";
    "__loader__"; "__name__"; "__package__"; "__spec__"; "abs"; "aiter"; "all";
    "anext"; "any"; "ascii"; "bin"; "bool"; "breakpoint"; "bytearray"; "bytes";
    "callable"; "chr"; "classmethod"; "compile"; "complex"; "copyright"; "credits";
    "delattr"; "dict"; "dir"; "divmod"; "enumerate"; "eval"; "exec"; "exit"; "filter";
    "float"; "format"; "frozenset"; "getattr"; "globals"; "hasattr"; "hash"; "help";
    "hex"; "id"; "input"; "int"; "isinstance"; "issubclass"; "iter"; "len"; "license";
    "list"; "locals"; "map"; "max"; "memoryview"; "min"; "next"; "object"; "oct";
    "open"; "ord"; "pow"; "print"; "property"; "quit"; "range"; "repr"; "reversed";
    "round"; "set"; "setattr"; "slice"; "sorted"; "staticmethod"; "str"; "sum";
    "super"; "tuple"; "type"; "vars"; "zip" ].

Definition builtins : gmap string pyval :=
  list_to_map ((λ n, (n, PObj "builtin")) <$> builtin_names).

(** A global name is looked up in the module's namespace, then in the
    builtins; [None] stands for the [NameError]. *)
Definition load_name (globals : gmap string pyval) (name : string) : option pyval :=
  match globals !! name with
  | Some v => Some v
  | None => builtins !! name
  end.

(** ** The file system as seen at load *)

Record world := {
  path_exists : string -> bool;          (* os.path.exists *)
  read_chars : string -> option string   (* the decoded characters of a file;
                                            None: open or read raises *)
}.

(** ** The libraries behind the script

    What a call into prompt_toolkit or pygments does is not decided by the
    script.  A [toolkit] gives the outcome of each of them. *)

Record toolkit := {
  (* input_dialog(title=...).run(); the second argument is what the user
     would answer *)
  run_input_dialog : string -> option string -> result (option string);
  (* message_dialog(title=..., text=...).run() *)
  run_message_dialog : string -> string -> result unit;
  (* editor.buffer.document.is_dirty; the argument is the value such a
     flag would hold *)
  get_is_dirty : bool -> result bool;
  (* PygmentsLexer(lexer), for the lexer get_lexer_by_name has returned *)
  new_PygmentsLexer : string -> result string
}.

(** The interfaces the script is written against: a dialog returns the
    reply, the document has the flag, the constructor takes the lexer. *)
Definition assumed_toolkit : toolkit :=
  {| run_input_dialog := λ _ reply, Ok reply;
     run_message_dialog := λ _ _, Ok ();
     get_is_dirty := λ flag, Ok flag;
     new_PygmentsLexer := λ lx, Ok lx |}.

Definition nested_run_error : exc :=
  RuntimeError "asyncio.run() cannot be called from a running event loop".

(** The libraries as they are (prompt_toolkit 3, pygments 2).
    - A dialog is an [Application]; its [run()] starts an event loop with
      [asyncio.run], which raises [RuntimeError] when a loop is running,
      and one is running whenever a key handler is called.
    - [Document] has no attribute [is_dirty].
    - [PygmentsLexer] calls its argument to make the lexer;
      [get_lexer_by_name] returns a lexer object, not a class, and the
      object is not callable. *)
Definition installed_toolkit : toolkit :=
  {| run_input_dialog := λ _ _, Raise nested_run_error;
     run_message_dialog := λ _ _, Raise nested_run_error;
     get_is_dirty := λ _, Raise (AttributeError "is_dirty");
     new_PygmentsLexer := λ lx, Raise (TypeError lx) |}.

(** What becomes of a write: [open(filename, "w")] empties the file before
    anything is written to it, so a failure after the open leaves the file
    with what had reached it. *)
Inductive write_result :=
| Written
| OpenFailed (msg : string)
| WriteFailed (msg : string) (kept : string).

Section Editor.

Variable rt : runtime.

Definition detect_lang (fname : option string) : string :=
  match fname with
  | None => "python"
  | Some f =>
      if String.eqb f "" then "python"
      else
        let ext := lstrip "."%char (lower rt (splitext f).2) in
        default "python" (EXTENSIONS !! ext)
  end.

(** [lexer_for] over the interface the script assumes, where
    [PygmentsLexer] takes what [get_lexer_by_name] returns; [lexer_for_with]
    below follows the constructor's own outcome. *)
Definition lexer_for (lang : string) : option string := get_lexer_by_name rt lang.

(** ** Session state: the module globals and the widget state they use *)

Record session := {
  filename : option string;
  text : string;              (* editor.text *)
  lexer : option string;      (* editor.lexer *)
  current_lang : string;
  current_eol : string
}.

Definition set_filename (f : option string) (st : session) : session :=
  {| filename := f; text := text st; lexer := lexer st;
     current_lang := current_lang st; current_eol := current_eol st |}.

Definition set_current_eol (e : string) (st : session) : session :=
  {| filename := filename st; text := text st;
     lexer := lexer st; current_lang := current_lang st; current_eol := e |}.

Definition set_language (lx : option string) (lang : string) (st : session) : session :=
  {| filename := filename st; text := text st;
     lexer := lx; current_lang := lang; current_eol := current_eol st |}.

Definition set_text (t : string) (st : session) : session :=
  {| filename := filename st; text := t; lexer := lexer st;
     current_lang := current_lang st; current_eol := current_eol st |}.

(** ** Observable effects *)

Inductive effect :=
| InputDialog (title : string)
| MessageDialog (title body : string)
| FileWrite (path content : string)
| AppRun
| AppExit.

#[export] Instance effect_eq_dec : EqDecision effect.
Proof. solve_decision. Defined.

Definition trace := list effect.

(** ** Line endings *)

(** [editor.text.replace("\n", eol)] *)
Definition serialize_with (eol : string) (t : string) : string := replace str_LF eol t.

(** What a text-mode [read()] does with [newline=None]: the decoder's
    output goes through [replace("\r\n", "\n")] and [replace("\r", "\n")]. *)
Definition universal_newlines (s : string) : string :=
  replace str_CR str_LF (replace str_CRLF str_LF s).

(** ** Ctrl+O: save *)

Definition saved_message (fname eol : string) : string :=
  "File saved as " +:+ fname +:+ " (" +:+ upper rt eol +:+ ")".

(** The [try] block, where the dialogs return.  [write_err] is the outcome
    of the [open]: [None] when it and the write succeed, [Some msg] when
    the [open] raises an exception [e] with [str(e) = msg], the file being
    left as it was.  ([try_write_with] below also has the failure after the
    [open].)  A missing key raises [KeyError], whose [str] is the quoted
    key. *)
Definition try_write (st : session) (write_err : option string) : trace :=
  match EOL_FORMATS !! current_eol st with
  | None => [MessageDialog "Error" ("'" +:+ current_eol st +:+ "'")]
  | Some eol =>
      let content := serialize_with eol (text st) in
      match write_err with
      | None =>
          [FileWrite (default "" (filename st)) content;
           MessageDialog "Saved" (saved_message (default "" (filename st)) (current_eol st))]
      | Some msg => [MessageDialog "Error" msg]
      end
  end.

Definition choose_eol (eol_choice : option string) (st : session) : session :=
  match eol_choice with
  | Some c =>
      if truthy eol_choice && in_eol_formats (lower rt c)
      then set_current_eol (lower rt c) st
      else st
  | None => st
  end.

Definition save_body (st : session) (eol_choice write_err : option string)
  : session * trace :=
  let st' := choose_eol eol_choice st in
  (st', InputDialog "Select Line Ending" :: try_write st' write_err).

Definition key_ctrl_o (st : session) (save_as eol_choice write_err : option string)
  : session * trace :=
  if negb (truthy (filename st)) then
    if negb (truthy save_as) then (st, [InputDialog "Save As"])
    else
      let '(st', tr) := save_body (set_filename save_as st) eol_choice write_err in
      (st', InputDialog "Save As" :: tr)
  else save_body st eol_choice write_err.

(** ** Ctrl+X: exit *)

Definition answers_yes (ans : option string) : bool :=
  match ans with
  | Some a => truthy ans && String.eqb (lower rt a) "y"
  | None => false
  end.

Definition key_ctrl_x (st : session) (is_dirty : bool)
    (ans save_as eol_choice write_err : option string) : session * trace :=
  if is_dirty then
    if answers_yes ans then
      let '(st', tr) := key_ctrl_o st save_as eol_choice write_err in
      (st', InputDialog "Exit" :: tr ++ [AppExit])
    else (st, [InputDialog "Exit"; AppExit])
  else (st, [AppExit]).

(** ** Alt+L: change the highlighting language *)

Definition key_alt_l (st : session) (choice : option string) : session * trace :=
  match choice with
  | None => (st, [InputDialog "Language"])
  | Some c =>
      if negb (truthy choice) then (st, [InputDialog "Language"])
      else
        let c' := lower rt c in
        if in_supported c'
        then (set_language (lexer_for c') c' st, [InputDialog "Language"])
        else (st, [InputDialog "Language"; MessageDialog "Error" "Unknown language"])
  end.

(** ** The event loop

    A key press comes with what the user and the file system will answer
    during its handler; [Ctrl+X] also with the value of
    [editor.buffer.document.is_dirty] at that moment. *)

Inductive event :=
| CtrlO (save_as eol_choice write_err : option string)
| CtrlX (is_dirty : bool) (ans save_as eol_choice write_err : option string)
| AltL (choice : option string)
| Edit (new_text : string).   (* the TextArea changes its buffer *)

Definition dispatch (st : session) (ev : event) : session * trace :=
  match ev with
  | CtrlO save_as eol_choice write_err => key_ctrl_o st save_as eol_choice write_err
  | CtrlX d ans save_as eol_choice write_err =>
      key_ctrl_x st d ans save_as eol_choice write_err
  | AltL choice => key_alt_l st choice
  | Edit t => (set_text t st, [])
  end.

Definition exits (tr : trace) : bool := bool_decide (AppExit ∈ tr).

(** [app.run()]: events are handled one at a time until a handler calls
    [event.app.exit()]. *)
Fixpoint run_events (st : session) (evs : list event) : session * trace :=
  match evs with
  | [] => (st, [])
  | ev :: rest =>
      let '(st1, tr1) := dispatch st ev in
      if exits tr1 then (st1, tr1)
      else let '(st2, tr2) := run_events st1 rest in (st2, tr1 ++ tr2)
  end.

(** ** Module-level execution

    The imports and the constructors of the widgets, of the key bindings
    and of the application are taken to succeed; what can fail at module
    level is reading the file and, in [startup_with] below, building the
    lexer of the editor. *)

(** [sys.argv[1] if len(sys.argv) > 1 else None] *)
Definition argv_filename (argv : list string) : option string :=
  if (1 <? List.length argv)%nat then argv !! 1%nat else None.

Definition file_opened (fname : option string) (w : world) : bool :=
  match fname with
  | Some f => truthy fname && path_exists w f
  | None => false
  end.

Definition load_text (fname : option string) (w : world) : result string :=
  match fname with
  | Some f =>
      if file_opened fname w then
        match read_chars w f with
        | Some chars => Ok (universal_newlines chars)
        | None => Raise (OSError f)
        end
      else Ok ""
  | None => Ok ""
  end.

Definition startup (argv : list string) (w : world) : result session :=
  let fname := argv_filename argv in
  match load_text fname w with
  | Raise e => Raise e
  | Ok t =>
      let lang := detect_lang fname in
      Ok {| filename := fname; text := t; lexer := lexer_for lang;
            current_lang := lang; current_eol := "unix" |}
  end.

Definition str_or_none (o : option string) : pyval :=
  match o with
  | Some s => PStr s
  | None => PNone
  end.

(** The module namespace when the entry-point guard is reached. *)
Definition module_globals (st : session) (opened : bool) : gmap string pyval :=
  list_to_map
    ([ ("__name__", PStr "__main__"); ("__doc__", PObj "str");
       ("__package__", PNone); ("__loader__", PObj "loader"); ("__spec__", PNone);
       ("__annotations__", PObj "dict"); ("__builtins__", PObj "module");
       ("__file__", PObj "str"); ("__cached__", PNone);
       ("sys", PObj "module"); ("os", PObj "module");
       ("Application", PObj "class"); ("KeyBindings", PObj "class");
       ("Layout", PObj "class"); ("HSplit", PObj "class");
       ("TextArea", PObj "class"); ("Label", PObj "class");
       ("PygmentsLexer", PObj "class"); ("input_dialog", PObj "function");
       ("message_dialog", PObj "function"); ("Style", PObj "class");
       ("get_lexer_by_name", PObj "function"); ("ClassNotFound", PObj "class");
       ("SUPPORTED_LANGS", PObj "list"); ("style", PObj "Style");
       ("filename", str_or_none (filename st)); ("text", PStr (text st)) ]
     ++ (if opened then [("f", PObj "file")] else [])
     ++ [ ("detect_lang", PObj "function"); ("lexer_for", PObj "function");
          ("current_lang", PStr (current_lang st)); ("editor", PObj "TextArea");
          ("EOL_FORMATS", PObj "dict"); ("current_eol", PStr (current_eol st));
          ("status_text", PObj "function"); ("status_bar", PObj "Label");
          ("kb", PObj "KeyBindings"); ("_", PObj "function");
          ("root", PObj "HSplit"); ("layout", PObj "Layout");
          ("app", PObj "Application"); ("main", PObj "function") ]).

End Editor.

Arguments filename _ : assert.
Arguments text _ : assert.
Arguments current_lang _ : assert.
Arguments current_eol _ : assert.

(** ** The handlers, call by call

    The same code with every library call taken from a [toolkit]: a call
    that raises ends the handler there, with the session as it is at that
    point.  An [outcome] is the session the handler leaves, the calls it
    has made and the exception it ends with, if any.  In the trace,
    [InputDialog] and [MessageDialog] stand for the call of the dialog's
    [run()], whether it returns or raises, and [FileWrite p c] for the file
    [p] being left with the content [c]. *)

Record outcome := {
  final : session;
  calls : trace;
  raised : option exc
}.

Section Toolkit.

Variable tk : toolkit.
Variable rt : runtime.

(** Lines 59-63: [ClassNotFound] is caught, nothing else is. *)
Definition lexer_for_with (lang : string) : result (option string) :=
  match get_lexer_by_name rt lang with
  | None => Ok None
  | Some lx =>
      match new_PygmentsLexer tk lx with
      | Ok l => Ok (Some l)
      | Raise e => Raise e
      end
  end.

(** Lines 33-74: the load, then the editor with its lexer (line 66), then
    [current_eol]. *)
Definition startup_with (argv : list string) (w : world) : result session :=
  let fname := argv_filename argv in
  match load_text fname w with
  | Raise e => Raise e
  | Ok t =>
      let lang := detect_lang rt fname in
      match lexer_for_with lang with
      | Raise e => Raise e
      | Ok lx =>
          Ok {| filename := fname; text := t; lexer := lx;
                current_lang := lang; current_eol := "unix" |}
      end
  end.

(** [except Exception as e: message_dialog(title="Error", text=str(e)).run()] *)
Definition report_error (msg : string) : trace * option exc :=
  ([MessageDialog "Error" msg],
   match run_message_dialog tk "Error" msg with
   | Ok _ => None
   | Raise e => Some e
   end).

(** Lines 105-111.  An exception of the "Saved" dialog is raised inside
    the [try] and so is caught like one of the write. *)
Definition try_write_with (st : session) (wr : write_result) : trace * option exc :=
  match EOL_FORMATS !! current_eol st with
  | None => report_error ("'" +:+ current_eol st +:+ "'")
  | Some eol =>
      let content := serialize_with eol (text st) in
      let path := default "" (filename st) in
      match wr with
      | OpenFailed msg => report_error msg
      | WriteFailed msg kept =>
          (FileWrite path kept :: (report_error msg).1, (report_error msg).2)
      | Written =>
          let saved := saved_message rt path (current_eol st) in
          match run_message_dialog tk "Saved" saved with
          | Ok _ => ([FileWrite path content; MessageDialog "Saved" saved], None)
          | Raise e =>
              (FileWrite path content :: MessageDialog "Saved" saved
                 :: (report_error (exc_message e)).1,
               (report_error (exc_message e)).2)
          end
      end
  end.

(** Lines 97-111, after the calls [pre]. *)
Definition save_body_with (st : session) (pre : trace)
    (eol_choice : option string) (wr : write_result) : outcome :=
  match run_input_dialog tk "Select Line Ending" eol_choice with
  | Raise e =>
      {| final := st; calls := pre ++ [InputDialog "Select Line Ending"];
         raised := Some e |}
  | Ok ec =>
      let st' := choose_eol rt ec st in
      {| final := st';
         calls := pre ++ InputDialog "Select Line Ending" :: (try_write_with st' wr).1;
         raised := (try_write_with st' wr).2 |}
  end.

(** Lines 87-111. *)
Definition key_ctrl_o_with (st : session) (save_as eol_choice : option string)
    (wr : write_result) : outcome :=
  if negb (truthy (filename st)) then
    match run_input_dialog tk "Save As" save_as with
    | Raise e => {| final := st; calls := [InputDialog "Save As"]; raised := Some e |}
    | Ok fname =>
        if negb (truthy fname)
        then {| final := st; calls := [InputDialog "Save As"]; raised := None |}
        else save_body_with (set_filename fname st) [InputDialog "Save As"] eol_choice wr
    end
  else save_body_with st [] eol_choice wr.

(** Lines 113-120. *)
Definition key_ctrl_x_with (st : session) (flag : bool)
    (ans save_as eol_choice : option string) (wr : write_result) : outcome :=
  match get_is_dirty tk flag with
  | Raise e => {| final := st; calls := []; raised := Some e |}
  | Ok false => {| final := st; calls := [AppExit]; raised := None |}
  | Ok true =>
      match run_input_dialog tk "Exit" ans with
      | Raise e => {| final := st; calls := [InputDialog "Exit"]; raised := Some e |}
      | Ok a =>
          if answers_yes rt a then
            let o := key_ctrl_o_with st save_as eol_choice wr in
            match raised o with
            | Some e =>
                {| final := final o; calls := InputDialog "Exit" :: calls o;
                   raised := Some e |}
            | None =>
                {| final := final o; calls := InputDialog "Exit" :: calls o ++ [AppExit];
                   raised := None |}
            end
          else {| final := st; calls := [InputDialog "Exit"; AppExit]; raised := None |}
      end
  end.

(** Lines 122-134. *)
Definition key_alt_l_with (st : session) (reply : option string) : outcome :=
  match run_input_dialog tk "Language" reply with
  | Raise e => {| final := st; calls := [InputDialog "Language"]; raised := Some e |}
  | Ok choice =>
      if negb (truthy choice)
      then {| final := st; calls := [InputDialog "Language"]; raised := None |}
      else
        let c := lower rt (default "" choice) in
        if in_supported c then
          match lexer_for_with c with
          | Raise e =>
              {| final := st; calls := [InputDialog "Language"]; raised := Some e |}
          | Ok lx =>
              {| final := set_language lx c st; calls := [InputDialog "Language"];
                 raised := None |}
          end
        else
          {| final := st;
             calls := [InputDialog "Language"; MessageDialog "Error" "Unknown language"];
             raised := match run_message_dialog tk "Error" "Unknown language" with
                       | Ok _ => None
                       | Raise e => Some e
                       end |}
  end.

(** Line 152: [if <ident> == "__main__": main()], where [main] is
    [app.run()]. *)
Definition entry_guard (ident : string) (globals : gmap string pyval) : result trace :=
  match load_name globals ident with
  | None => Raise (NameError ident)
  | Some v => if bool_decide (v = PStr "__main__") then Ok [AppRun] else Ok []
  end.

(** The module body: everything up to line 147, then the guard. *)
Definition exec_module (ident : string) (argv : list string) (w : world)
  : result trace :=
  match startup_with argv w with
  | Raise e => Raise e
  | Ok st => entry_guard ident (module_globals st (file_opened (argv_filename argv) w))
  end.

(** Running a file: it is compiled, then its module body is executed. *)
Definition run_file (lines : list (nat * string)) (ident : string)
    (argv : list string) (w : world) : result trace :=
  match compile_error lines with
  | Some e => Raise e
  | None => exec_module ident argv w
  end.

End Toolkit.

(** [python3 sync.py ...], with the libraries as they are: the guard of the
    source reads [name]. *)
Definition run_script (rt : runtime) (argv : list string) (w : world) : result trace :=
  run_file installed_toolkit rt sync_py_lines "name" argv w.

(** The file a save is about to write: the bound name, or else what the
    "Save As" dialog returns. *)
Definition asked_target (tk : toolkit) (st : session) (save_as : option string)
  : result (option string) :=
  if truthy (filename st) then Ok (filename st)
  else run_input_dialog tk "Save As" save_as.

(** The exception a message dialog ends with, if any. *)
Definition message_outcome (tk : toolkit) (title body : string) : option exc :=
  match run_message_dialog tk title body with
  | Ok _ => None
  | Raise e => Some e
  end.

(** A runtime whose pygments has none of the lexers. *)
Definition no_lexers (rt : runtime) : runtime :=
  {| lower := lower rt; upper := upper rt; get_lexer_by_name := λ _, None |}.

(** The outcome of a write over the assumed interfaces. *)
Definition write_result_of (write_err : option string) : write_result :=
  match write_err with
  | None => Written
  | Some msg => OpenFailed msg
  end.

(** ** Detection as the specification words it

    The script has no detection of its own.  [spec_detect] follows the
    words of the specification's section 4.6, for comparison with what the
    load does: [\r\n], lone [\n] and lone [\r] are counted, the highest
    count wins, a tie goes to LF, no terminator gives LF. *)

Inductive EolMode := LF | CRLF | CR.

#[export] Instance EolMode_eq_dec : EqDecision EolMode.
Proof. solve_decision. Defined.

Definition mode_key (m : EolMode) : string :=
  match m with
  | LF => "unix"
  | CRLF => "dos"
  | CR => "mac"
  end.

Record eol_counts := { n_crlf : nat; n_lf : nat; n_cr : nat }.

Fixpoint count_terminators (s : string) : eol_counts :=
  match s with
  | "" => {| n_crlf := 0; n_lf := 0; n_cr := 0 |}
  | String c s' =>
      if Ascii.eqb c CR_char then
        match s' with
        | String c' s'' =>
            if Ascii.eqb c' LF_char then
              let k := count_terminators s'' in
              {| n_crlf := S (n_crlf k); n_lf := n_lf k; n_cr := n_cr k |}
            else
              let k := count_terminators s' in
              {| n_crlf := n_crlf k; n_lf := n_lf k; n_cr := S (n_cr k) |}
        | "" => {| n_crlf := 0; n_lf := 0; n_cr := 1 |}
        end
      else
        let k := count_terminators s' in
        if Ascii.eqb c LF_char
        then {| n_crlf := n_crlf k; n_lf := S (n_lf k); n_cr := n_cr k |}
        else k
  end.

Definition spec_detect (raw : string) : EolMode :=
  let k := count_terminators raw in
  if (n_lf k <? n_crlf k)%nat && (n_cr k <? n_crlf k)%nat then CRLF
  else if (n_lf k <? n_cr k)%nat && (n_crlf k <? n_cr k)%nat then CR
  else LF.

(** [serialize(text, mode)] and [normalize(raw)] of the specification, read
    off the code: the save handler's [replace] with the terminator of the
    mode ([None] where [EOL_FORMATS[mode]] raises [KeyError]), and the
    newline translation of the text-mode read. *)
Definition serialize (t mode : string) : option string :=
  eol ← EOL_FORMATS !! mode; Some (serialize_with eol t).

Definition normalize (raw : string) : string := universal_newlines raw.

(** The path a save writes to: the bound file name, or else the reply to
    the "Save As" dialog. *)
Definition save_target (st : session) (save_as : option string) : option string :=
  if truthy (filename st) then filename st else save_as.

(** The EOL mode is a key of [EOL_FORMATS]. *)
Definition eol_valid (st : session) : Prop := is_Some (EOL_FORMATS !! current_eol st).

(** The active language is one of [SUPPORTED_LANGS]. *)
Definition lang_supported (st : session) : Prop := current_lang st ∈ SUPPORTED_LANGS.

(** ** The specification's statements, as worded *)

(** Every input is lowercased and checked; a member becomes the language,
    anything else leaves it and reports an error. *)
Definition language_rule (tk : toolkit) (rt : runtime) (st : session)
    (input : string) : Prop :=
  if in_supported (lower rt input)
  then current_lang (final (key_alt_l_with tk rt st (Some input))) = lower rt input
  else current_lang (final (key_alt_l_with tk rt st (Some input))) = current_lang st
       ∧ MessageDialog "Error" "Unknown language"
           ∈ calls (key_alt_l_with tk rt st (Some input)).

(** At load the document gets the mode detected in the file's characters. *)
Definition load_detects_eol (tk : toolkit) (rt : runtime) (argv : list string)
    (w : world) (chars : string) : Prop :=
  ∃ st, startup_with tk rt argv w = Ok st
        ∧ current_eol st = mode_key (spec_detect chars).

(** [serialize(normalize(serialize(text, mode)), mode) == serialize(text, mode)] *)
Definition roundtrip_law (t mode : string) : Prop :=
  (s ← serialize t mode; serialize (normalize s) mode) = serialize t mode.

(** Started on a missing path: empty document, no bound path, and the
    first save asks for a file name. *)
Definition starts_unbound (tk : toolkit) (rt : runtime) (argv : list string)
    (w : world) : Prop :=
  ∃ st, startup_with tk rt argv w = Ok st ∧ text st = "" ∧ filename st = None
        ∧ ∀ save_as eol_choice wr,
            InputDialog "Save As" ∈ calls (key_ctrl_o_with tk rt st save_as eol_choice wr).

(** A save whose write fails reports the error, ends normally and changes
    no state. *)
Definition save_failure_atomic (tk : toolkit) (rt : runtime) (st : session)
    (save_as eol_choice : option string) (msg : string) : Prop :=
  MessageDialog "Error" msg
    ∈ calls (key_ctrl_o_with tk rt st save_as eol_choice (OpenFailed msg))
  ∧ raised (key_ctrl_o_with tk rt st save_as eol_choice (OpenFailed msg)) = None
  ∧ final (key_ctrl_o_with tk rt st save_as eol_choice (OpenFailed msg)) = st.

(** With unsaved changes the quit command asks, and cancelling the prompt
    returns to the session without exiting. *)
Definition cancel_keeps_session (tk : toolkit) (rt : runtime) (st : session)
    (save_as eol_choice : option string) (wr : write_result) : Prop :=
  InputDialog "Exit" ∈ calls (key_ctrl_x_with tk rt st true None save_as eol_choice wr)
  ∧ (AppExit ∉ calls (key_ctrl_x_with tk rt st true None save_as eol_choice wr))
  ∧ raised (key_ctrl_x_with tk rt st true None save_as eol_choice wr) = None.

(** Running the script ends in the [NameError] of the entry-point guard. *)
Definition guard_raises_NameError (rt : runtime) (argv : list string) (w : world)
  : Prop :=
  run_script rt argv w = Raise (NameError "name").

(** ** Sample data *)

Definition st_python : session :=
  {| filename := Some "notes.txt"; text := "a" +:+ str_LF +:+ "bb" +:+ str_LF +:+ "ccc";
     lexer := Some "python"; current_lang := "python"; current_eol := "unix" |}.

Definition no_files : world :=
  {| path_exists := λ _, false; read_chars := λ _, None |}.

Definition crlf_file : world :=
  {| path_exists := λ _, true;
     read_chars := λ _, Some ("a" +:+ str_CRLF +:+ "b" +:+ str_CRLF) |}.

(** [sync.py] with line 134 indented by eight spaces instead of a tab. *)
Definition sync_py_lines_respaced : list (nat * string) :=
  (λ l : nat * string, if (l.1 =? 134)%nat then (l.1, "        ") else l) <$> sync_py_lines.

(** The number of line terminators of a file, of the three kinds. *)
Definition terminators (s : string) : nat :=
  n_crlf (count_terminators s) + n_lf (count_terminators s) + n_cr (count_terminators s).

(** [s] is made of the character [c] only. *)
Fixpoint only_char (c : ascii) (s : string) : bool :=
  match s with
  | "" => true
  | String a s' => Ascii.eqb a c && only_char c s'
  end.

(** ** Observations on events and traces *)

Definition is_edit (ev : event) : bool :=
  match ev with
  | Edit _ => true
  | _ => false
  end.

Definition is_alt_l (ev : event) : bool :=
  match ev with
  | AltL _ => true
  | _ => false
  end.

Definition is_ctrl_o (ev : event) : bool :=
  match ev with
  | CtrlO _ _ _ => true
  | _ => false
  end.

Definition is_ctrl_x (ev : event) : bool :=
  match ev with
  | CtrlX _ _ _ _ _ => true
  | _ => false
  end.

(** The files written during a trace, in order: path and content. *)
Fixpoint file_writes (tr : trace) : list (string * string) :=
  match tr with
  | [] => []
  | FileWrite p c :: tr' => (p, c) :: file_writes tr'
  | _ :: tr' => file_writes tr'
  end.

(** No [\n] stands without a [\r] right before it; [after_CR] tells
    whether the character before [s] was a [\r]. *)
Fixpoint no_lone_LF (after_CR : bool) (s : string) : bool :=
  match s with
  | "" => true
  | String a s' =>
      (negb (Ascii.eqb a LF_char) || after_CR) && no_lone_LF (Ascii.eqb a CR_char) s'
  end.

(** A file that exists and cannot be read. *)
Definition unreadable_file : world :=
  {| path_exists := λ _, true; read_chars := λ _, None |}.

(** * Properties *)

(** ** The definitions at work *)

Example replace_is_leftmost : replace "aa" "b" "aaa" = "ba".
Proof. reflexivity. Qed.

Example split_keeps_last_empty_line :
  split_on LF_char ("a" +:+ str_LF +:+ "b" +:+ str_LF) = ["a"; "b"; ""].
Proof. reflexivity. Qed.

Example universal_newlines_mixed :
  universal_newlines ("a" +:+ str_CRLF +:+ "b" +:+ str_CR +:+ str_CR +:+ str_LF +:+ "c")
  = "a" +:+ str_LF +:+ "b" +:+ str_LF +:+ str_LF +:+ "c".
Proof. reflexivity. Qed.

Example splitext_plain : splitext "src/main.rs" = ("src/main", ".rs").
Proof. reflexivity. Qed.

Example splitext_leading_dots : splitext "dir.d/..bashrc" = ("dir.d/..bashrc", "").
Proof. reflexivity. Qed.

Example detect_lang_upper_case : detect_lang ascii_runtime (Some "src/main.RS") = "rust".
Proof. reflexivity. Qed.

Example detect_lang_unmapped : detect_lang ascii_runtime (Some "notes.txt") = "python".
Proof. reflexivity. Qed.

Example spec_detect_majority :
  spec_detect ("a" +:+ str_CRLF +:+ "b" +:+ str_CRLF +:+ "c" +:+ str_LF) = CRLF.
Proof. reflexivity. Qed.

Example spec_detect_tie :
  spec_detect ("a" +:+ str_CRLF +:+ "b" +:+ str_LF) = LF.
Proof. reflexivity. Qed.

(** Tabs alone indent consistently; a tab under a block indented with
    spaces does not. *)
Example tabs_only_compile :
  compile_error [(1, ""); (2, str_TAB); (3, str_TAB +:+ str_TAB); (4, "")] = None.
Proof. reflexivity. Qed.

Example tab_under_spaces_rejected :
  compile_error [(1, ""); (2, "    "); (3, "        "); (4, "    "); (5, str_TAB)]
  = Some (TabError 5).
Proof. reflexivity. Qed.

(** ** Strings *)

#[local] Arguments ascii_dec : simpl never.

Lemma ascii_eqb_false (a c : ascii) : a ≠ c → Ascii.eqb a c = false.
Proof. intros Hne. destruct (Ascii.eqb_spec a c); [contradiction | reflexivity]. Qed.

Lemma replace_nil (old new : string) : replace old new "" = "".
Proof. reflexivity. Qed.

(** One-character patterns: [replace] works character by character. *)
Lemma replace_char_cons (c : ascii) (new : string) (a : ascii) (s : string) :
  replace (String c "") new (String a s) =
  if Ascii.eqb a c then new +:+ replace (String c "") new s
  else String a (replace (String c "") new s).
Proof.
  unfold replace; simpl.
  destruct (ascii_dec c a) as [->|Hne].
  - rewrite Ascii.eqb_refl. destruct s; reflexivity.
  - rewrite ascii_eqb_false by congruence. reflexivity.
Qed.




(** The pattern ["\r\n"]. *)
Lemma prefix_empty (s : string) : String.prefix "" s = true.
Proof. destruct s; reflexivity. Qed.

Lemma prefix_CRLF_CR (s : string) :
  String.prefix str_CRLF (String CR_char s) = String.prefix str_LF s.
Proof. reflexivity. Qed.

Lemma prefix_LF_cons (b : ascii) (s : string) :
  String.prefix str_LF (String b s) = Ascii.eqb b LF_char.
Proof.
  cbn [String.prefix str_LF]. rewrite prefix_empty.
  destruct (ascii_dec LF_char b) as [<-|Hne]; [reflexivity|].
  symmetry. apply ascii_eqb_false. congruence.
Qed.

Lemma replace_CRLF_match (new s : string) :
  replace str_CRLF new (String CR_char (String LF_char s)) =
  new +:+ replace str_CRLF new s.
Proof.
  unfold replace. cbn [replace_from].
  rewrite prefix_CRLF_CR, prefix_LF_cons. reflexivity.
Qed.

Lemma replace_CRLF_other (new : string) (a : ascii) (s : string) :
  a ≠ CR_char →
  replace str_CRLF new (String a s) = String a (replace str_CRLF new s).
Proof.
  intros Hne. unfold replace. cbn [replace_from String.prefix str_CRLF].
  destruct (ascii_dec CR_char a) as [Heq|_]; [congruence | reflexivity].
Qed.

Lemma replace_CRLF_lone_CR (new : string) (s : string) :
  String.prefix str_LF s = false →
  replace str_CRLF new (String CR_char s) = String CR_char (replace str_CRLF new s).
Proof.
  intros Hp. unfold replace. cbn [replace_from].
  rewrite prefix_CRLF_CR, Hp. reflexivity.
Qed.

Lemma has_char_cons_false (c a : ascii) (s : string) :
  has_char c (String a s) = false → a ≠ c ∧ has_char c s = false.
Proof.
  simpl. intros [H1 H2]%orb_false_iff. split; [|exact H2].
  intros ->. rewrite Ascii.eqb_refl in H1. discriminate.
Qed.

Lemma has_char_append (c : ascii) (s1 s2 : string) :
  has_char c (s1 +:+ s2) = has_char c s1 || has_char c s2.
Proof.
  induction s1 as [|a s1 IH]; simpl; [reflexivity|].
  rewrite IH. apply orb_assoc.
Qed.

(** A text without the pattern's character is left alone. *)
Lemma replace_char_absent (c : ascii) (new s : string) :
  has_char c s = false → replace (String c "") new s = s.
Proof.
  induction s as [|a s IH]; [reflexivity|].
  intros [Hne Hs]%has_char_cons_false.
  rewrite replace_char_cons, ascii_eqb_false by exact Hne.
  rewrite IH by exact Hs. reflexivity.
Qed.

Lemma replace_CRLF_absent (new s : string) :
  has_char CR_char s = false → replace str_CRLF new s = s.
Proof.
  induction s as [|a s IH]; [reflexivity|].
  intros [Hne Hs]%has_char_cons_false.
  rewrite replace_CRLF_other by exact Hne.
  rewrite IH by exact Hs. reflexivity.
Qed.

Lemma replace_CRLF_no_LF (new s : string) :
  has_char LF_char s = false → replace str_CRLF new s = s.
Proof.
  induction s as [|a s IH]; [reflexivity|].
  intros [Hne Hs]%has_char_cons_false.
  destruct (ascii_dec a CR_char) as [->|Ha].
  - rewrite replace_CRLF_lone_CR, IH; [reflexivity | exact Hs |].
    destruct s as [|b s]; [reflexivity|].
    apply has_char_cons_false in Hs as [Hb _].
    rewrite prefix_LF_cons. apply ascii_eqb_false, Hb.
  - rewrite replace_CRLF_other, IH; [reflexivity | exact Hs | exact Ha].
Qed.

(** Replacing a character by another string removes it, unless the new
    string brings it back. *)
Lemma replace_char_removes (c : ascii) (new s : string) :
  has_char c new = false → has_char c (replace (String c "") new s) = false.
Proof.
  intros Hnew. induction s as [|a s IH]; [reflexivity|].
  rewrite replace_char_cons.
  destruct (Ascii.eqb_spec a c) as [->|Hne].
  - rewrite has_char_append, Hnew, IH. reflexivity.
  - simpl. rewrite ascii_eqb_false, IH by exact Hne. reflexivity.
Qed.

(** Replacing [c] by [d] and then [d] by [c] gives the text back when it
    had no [d]. *)
Lemma replace_char_inverse (c d : ascii) (s : string) :
  has_char d s = false →
  replace (String d "") (String c "") (replace (String c "") (String d "") s) = s.
Proof.
  induction s as [|a s IH]; [reflexivity|].
  intros [Hne Hs]%has_char_cons_false.
  rewrite replace_char_cons.
  destruct (Ascii.eqb_spec a c) as [->|Hac].
  - change (String d "" +:+ ?x) with (String d x).
    rewrite replace_char_cons, Ascii.eqb_refl, IH by exact Hs. reflexivity.
  - rewrite replace_char_cons, ascii_eqb_false, IH by assumption. reflexivity.
Qed.

(** The text read at load has no carriage return left. *)
Lemma universal_newlines_no_CR (s : string) :
  has_char CR_char (universal_newlines s) = false.
Proof. unfold universal_newlines. apply replace_char_removes. reflexivity. Qed.

Lemma universal_newlines_canonical (s : string) :
  has_char CR_char s = false → universal_newlines s = s.
Proof.
  intros H. unfold universal_newlines.
  rewrite replace_CRLF_absent by exact H.
  apply replace_char_absent. exact H.
Qed.

(** ** The tables *)

Lemma EOL_FORMATS_lookup (mode eol : string) :
  EOL_FORMATS !! mode = Some eol ↔
  (mode = "unix" ∧ eol = str_LF) ∨ (mode = "dos" ∧ eol = str_CRLF)
  ∨ (mode = "mac" ∧ eol = str_CR).
Proof.
  unfold EOL_FORMATS.
  rewrite !lookup_insert_Some, lookup_empty.
  intuition (subst; auto; discriminate).
Qed.

Lemma in_eol_formats_true (x : string) :
  in_eol_formats x = true ↔ is_Some (EOL_FORMATS !! x).
Proof. unfold in_eol_formats. rewrite bool_decide_eq_true. reflexivity. Qed.

Lemma in_supported_true (x : string) : in_supported x = true ↔ x ∈ SUPPORTED_LANGS.
Proof. unfold in_supported. rewrite bool_decide_eq_true. reflexivity. Qed.

Lemma in_supported_false (x : string) : in_supported x = false ↔ x ∉ SUPPORTED_LANGS.
Proof. unfold in_supported. rewrite bool_decide_eq_false. reflexivity. Qed.

Lemma truthy_Some (c : string) : truthy (Some c) = true ↔ c ≠ "".
Proof.
  unfold truthy. destruct (String.eqb_spec c ""); simpl; split; congruence.
Qed.

Lemma truthy_false (o : option string) :
  truthy o = false ↔ o = None ∨ o = Some "".
Proof.
  destruct o as [c|]; simpl.
  - destruct (String.eqb_spec c "") as [->|Hne]; simpl.
    + split; auto.
    + split; [discriminate|]. intros [H|H]; congruence.
  - split; auto.
Qed.

(** ** Alt+L *)

Section AltL.

Variable rt : runtime.

Lemma key_alt_l_silent (st : session) (choice : option string) :
  truthy choice = false → key_alt_l rt st choice = (st, [InputDialog "Language"]).
Proof.
  intros H. unfold key_alt_l. destruct choice as [c|]; [|reflexivity].
  rewrite H. reflexivity.
Qed.

Lemma key_alt_l_member (st : session) (c : string) :
  c ≠ "" → lower rt c ∈ SUPPORTED_LANGS →
  key_alt_l rt st (Some c) =
  (set_language (lexer_for rt (lower rt c)) (lower rt c) st, [InputDialog "Language"]).
Proof.
  intros Hc Hin. unfold key_alt_l.
  apply truthy_Some in Hc. rewrite Hc. simpl.
  apply in_supported_true in Hin. rewrite Hin. reflexivity.
Qed.

Lemma key_alt_l_unknown (st : session) (c : string) :
  c ≠ "" → lower rt c ∉ SUPPORTED_LANGS →
  key_alt_l rt st (Some c) =
  (st, [InputDialog "Language"; MessageDialog "Error" "Unknown language"]).
Proof.
  intros Hc Hin. unfold key_alt_l.
  apply truthy_Some in Hc. rewrite Hc. simpl.
  apply in_supported_false in Hin. rewrite Hin. reflexivity.
Qed.

Lemma key_alt_l_lang (st : session) (choice : option string) :
  current_lang (key_alt_l rt st choice).1 = current_lang st
  ∨ current_lang (key_alt_l rt st choice).1 ∈ SUPPORTED_LANGS.
Proof.
  destruct (truthy choice) eqn:Ht.
  - destruct choice as [c|]; [|discriminate].
    apply truthy_Some in Ht.
    destruct (decide (lower rt c ∈ SUPPORTED_LANGS)) as [Hin|Hin].
    + rewrite key_alt_l_member by assumption. right. exact Hin.
    + rewrite key_alt_l_unknown by assumption. left. reflexivity.
  - rewrite key_alt_l_silent by exact Ht. left. reflexivity.
Qed.


End AltL.

(** ** The line-ending round trip *)

Lemma replace_char_self (c : ascii) (s : string) :
  replace (String c "") (String c "") s = s.
Proof.
  induction s as [|a s IH]; [reflexivity|].
  rewrite replace_char_cons, IH.
  destruct (Ascii.eqb_spec a c) as [->|_]; reflexivity.
Qed.

Lemma count_char_zero (c : ascii) (s : string) :
  count_char c s = 0 ↔ has_char c s = false.
Proof.
  induction s as [|a s IH]; simpl; [tauto|].
  destruct (Ascii.eqb a c); simpl; [split; discriminate | exact IH].
Qed.

Lemma count_char_append (c : ascii) (s1 s2 : string) :
  count_char c (s1 +:+ s2) = count_char c s1 + count_char c s2.
Proof. induction s1 as [|a s1 IH]; simpl; [reflexivity | rewrite IH; lia]. Qed.

(** Writing CRLF for every LF adds one CR per LF and keeps the LFs. *)
Lemma count_CR_serialize_dos (s : string) :
  count_char CR_char (serialize_with str_CRLF s) =
  count_char CR_char s + count_char LF_char s.
Proof.
  unfold serialize_with, str_LF.
  induction s as [|a s IH]; [reflexivity|].
  rewrite replace_char_cons.
  destruct (Ascii.eqb_spec a LF_char) as [->|Hne].
  - rewrite count_char_append, IH. simpl. lia.
  - simpl. rewrite IH, (ascii_eqb_false _ _ Hne). lia.
Qed.

Lemma count_LF_serialize_dos (s : string) :
  count_char LF_char (serialize_with str_CRLF s) = count_char LF_char s.
Proof.
  unfold serialize_with, str_LF.
  induction s as [|a s IH]; [reflexivity|].
  rewrite replace_char_cons.
  destruct (Ascii.eqb_spec a LF_char) as [->|Hne].
  - rewrite count_char_append, IH. simpl. lia.
  - simpl. rewrite IH, (ascii_eqb_false _ _ Hne). lia.
Qed.

Section Canonical.

(** A text in canonical form: no carriage return. *)
Variable t : string.
Hypothesis canonical : has_char CR_char t = false.

Lemma normalize_serialize_unix : normalize (serialize_with str_LF t) = t.
Proof.
  unfold normalize, serialize_with, str_LF. rewrite replace_char_self.
  apply universal_newlines_canonical, canonical.
Qed.

Lemma CRLF_to_LF_serialize_dos :
  replace str_CRLF str_LF (serialize_with str_CRLF t) = t.
Proof.
  unfold serialize_with, str_LF. revert canonical.
  induction t as [|a s IH]; [reflexivity|].
  intros [Hne Hs]%has_char_cons_false.
  rewrite replace_char_cons.
  destruct (Ascii.eqb_spec a LF_char) as [->|Ha].
  - change (str_CRLF +:+ ?x) with (String CR_char (String LF_char x)).
    rewrite replace_CRLF_match, IH by exact Hs. reflexivity.
  - rewrite replace_CRLF_other, IH by assumption. reflexivity.
Qed.

Lemma normalize_serialize_dos : normalize (serialize_with str_CRLF t) = t.
Proof.
  unfold normalize, universal_newlines.
  rewrite CRLF_to_LF_serialize_dos.
  apply replace_char_absent, canonical.
Qed.

Lemma normalize_serialize_mac : normalize (serialize_with str_CR t) = t.
Proof.
  unfold normalize, universal_newlines, serialize_with, str_LF, str_CR.
  rewrite replace_CRLF_no_LF by (apply replace_char_removes; reflexivity).
  apply replace_char_inverse, canonical.
Qed.

Lemma normalize_serialize (mode eol : string) :
  EOL_FORMATS !! mode = Some eol → normalize (serialize_with eol t) = t.
Proof.
  intros [[_ ->]|[[_ ->]|[_ ->]]]%EOL_FORMATS_lookup.
  - apply normalize_serialize_unix.
  - apply normalize_serialize_dos.
  - apply normalize_serialize_mac.
Qed.

End Canonical.

(** With CR as the terminator the law needs nothing of the text: after
    serialization no LF is left, so reading it back turns each CR into LF
    and writing turns each of them into CR again. *)
Lemma roundtrip_mac (t : string) :
  serialize_with str_CR (normalize (serialize_with str_CR t)) = serialize_with str_CR t.
Proof.
  unfold normalize, universal_newlines, serialize_with, str_LF, str_CR.
  assert (has_char LF_char (replace (String LF_char "") (String CR_char "") t) = false)
    as Hno by (apply replace_char_removes; reflexivity).
  rewrite replace_CRLF_no_LF by exact Hno.
  apply replace_char_inverse, Hno.
Qed.

Lemma roundtrip_law_unfold (t mode eol : string) :
  EOL_FORMATS !! mode = Some eol →
  roundtrip_law t mode ↔
  serialize_with eol (normalize (serialize_with eol t)) = serialize_with eol t.
Proof.
  intros He. unfold roundtrip_law, serialize. rewrite He. simpl.
  split; [intros [= ->]; reflexivity | intros ->; reflexivity].
Qed.

(** C4, as stated, fails on a text holding a carriage return: under "unix"
    the text "\r" is written as it is, read back as "\n" and written as
    "\n". *)
Lemma roundtrip_law_fails_on_CR : ¬ roundtrip_law str_CR "unix".
Proof. unfold roundtrip_law. vm_compute. discriminate. Qed.

(** C4 (amended): for every EolMode and every document text, the law
    [serialize(normalize(serialize(text, mode)), mode) = serialize(text, mode)]
    holds exactly when the text holds no carriage return (the canonical
    in-memory form, which is what load produces) or the mode is CR; and for
    a text without carriage return, normalizing the serialized bytes gives
    the text back. *)
Theorem roundtrip_canonical (t mode : string) :
  is_Some (EOL_FORMATS !! mode) →
  (roundtrip_law t mode ↔ has_char CR_char t = false ∨ mode = "mac")
  ∧ (has_char CR_char t = false → normalize <$> serialize t mode = Some t)
  ∧ ∀ chars, has_char CR_char (normalize chars) = false.
Proof.
  intros [eol He]. split; [|split].
  - rewrite (roundtrip_law_unfold _ _ _ He). split.
    + intros Hlaw.
      apply EOL_FORMATS_lookup in He as [[_ ->]|[[_ ->]|[-> _]]]; [left|left|right; reflexivity].
      * unfold serialize_with, str_LF in Hlaw. rewrite !replace_char_self in Hlaw.
        rewrite <- Hlaw. apply universal_newlines_no_CR.
      * apply count_char_zero.
        pose proof (count_CR_serialize_dos (normalize (serialize_with str_CRLF t))) as Hcr.
        pose proof (count_LF_serialize_dos (normalize (serialize_with str_CRLF t))) as Hlf.
        rewrite Hlaw in Hcr, Hlf.
        rewrite count_CR_serialize_dos in Hcr. rewrite count_LF_serialize_dos in Hlf.
        pose proof (universal_newlines_no_CR (serialize_with str_CRLF t)) as Hn.
        apply count_char_zero in Hn. unfold normalize in Hcr, Hlf. lia.
    + intros [Hc | ->].
      * rewrite (normalize_serialize t Hc mode eol He). reflexivity.
      * apply EOL_FORMATS_lookup in He as [[[=] _]|[[[=] _]|[_ ->]]].
        apply roundtrip_mac.
  - intros Hc. unfold serialize. rewrite He. simpl.
    rewrite (normalize_serialize t Hc mode eol He). reflexivity.
  - apply universal_newlines_no_CR.
Qed.

Lemma roundtrip_canonical_witness :
  roundtrip_law (text st_python) "dos"
  ∧ normalize <$> serialize (text st_python) "dos" = Some (text st_python).
Proof.
  assert (is_Some (EOL_FORMATS !! "dos")) as Hmode by (eexists; reflexivity).
  destruct (roundtrip_canonical (text st_python) "dos" Hmode) as (Hiff & Hback & _).
  split.
  - apply Hiff. left. reflexivity.
  - apply Hback. reflexivity.
Defined.

(** ** Ctrl+O *)

Section CtrlO.

Variable rt : runtime.

Lemma choose_eol_cases (ec : option string) (st : session) :
  (choose_eol rt ec st = st
   ∧ (truthy ec = false ∨ ∃ c, ec = Some c ∧ EOL_FORMATS !! lower rt c = None))
  ∨ (∃ c eol, ec = Some c ∧ c ≠ "" ∧ EOL_FORMATS !! lower rt c = Some eol
              ∧ choose_eol rt ec st = set_current_eol (lower rt c) st).
Proof.
  unfold choose_eol. destruct ec as [c|]; [|left; auto].
  destruct (truthy (Some c)) eqn:Ht; simpl; [|left; auto].
  destruct (in_eol_formats (lower rt c)) eqn:Hin.
  - right. apply in_eol_formats_true in Hin as [eol Heol].
    exists c, eol. apply truthy_Some in Ht. auto.
  - left. split; [reflexivity|]. right. exists c. split; [reflexivity|].
    apply eq_None_not_Some. intros His.
    apply in_eol_formats_true in His. congruence.
Qed.

Lemma choose_eol_valid (ec : option string) (st : session) :
  eol_valid st → eol_valid (choose_eol rt ec st).
Proof.
  intros Hv. destruct (choose_eol_cases ec st) as [[-> _]|(c & eol & _ & _ & He & ->)].
  - exact Hv.
  - exists eol. exact He.
Qed.

Lemma choose_eol_frame (ec : option string) (st : session) :
  filename (choose_eol rt ec st) = filename st
  ∧ text (choose_eol rt ec st) = text st
  ∧ lexer (choose_eol rt ec st) = lexer st
  ∧ current_lang (choose_eol rt ec st) = current_lang st.
Proof.
  unfold choose_eol. destruct ec as [c|]; [|auto].
  destruct (_ && _); auto.
Qed.


Lemma key_ctrl_o_bound (st : session) (sa ec we : option string) :
  truthy (filename st) = true → key_ctrl_o rt st sa ec we = save_body rt st ec we.
Proof. intros H. unfold key_ctrl_o. rewrite H. reflexivity. Qed.

Lemma key_ctrl_o_cancelled (st : session) (sa ec we : option string) :
  truthy (filename st) = false → truthy sa = false →
  key_ctrl_o rt st sa ec we = (st, [InputDialog "Save As"]).
Proof. intros H1 H2. unfold key_ctrl_o. rewrite H1, H2. reflexivity. Qed.

Lemma key_ctrl_o_save_as (st : session) (sa ec we : option string) :
  truthy (filename st) = false → truthy sa = true →
  key_ctrl_o rt st sa ec we =
  ((save_body rt (set_filename sa st) ec we).1,
   InputDialog "Save As" :: (save_body rt (set_filename sa st) ec we).2).
Proof. intros H1 H2. unfold key_ctrl_o. rewrite H1, H2. reflexivity. Qed.

(** Whenever the handler gets past the "Save As" question, it runs the
    save on the session bound to the target. *)
Lemma key_ctrl_o_target (st : session) (sa ec we : option string) :
  truthy (save_target st sa) = true →
  ∃ pre, (pre = [] ∨ pre = [InputDialog "Save As"])
    ∧ key_ctrl_o rt st sa ec we =
      (choose_eol rt ec (set_filename (save_target st sa) st),
       pre ++ InputDialog "Select Line Ending"
           :: try_write rt (choose_eol rt ec (set_filename (save_target st sa) st)) we).
Proof.
  unfold save_target. destruct (truthy (filename st)) eqn:Hf; intros Ht.
  - exists []. split; [auto|]. rewrite key_ctrl_o_bound by exact Hf.
    destruct st; reflexivity.
  - exists [InputDialog "Save As"]. split; [auto|].
    rewrite key_ctrl_o_save_as by assumption. reflexivity.
Qed.

Lemma key_ctrl_o_frame (st : session) (sa ec we : option string) :
  text (key_ctrl_o rt st sa ec we).1 = text st
  ∧ lexer (key_ctrl_o rt st sa ec we).1 = lexer st
  ∧ current_lang (key_ctrl_o rt st sa ec we).1 = current_lang st.
Proof.
  destruct (truthy (save_target st sa)) eqn:Ht.
  - destruct (key_ctrl_o_target st sa ec we Ht) as (pre & _ & ->). simpl.
    destruct (choose_eol_frame ec (set_filename (save_target st sa) st))
      as (_ & -> & -> & ->). auto.
  - unfold save_target in Ht. destruct (truthy (filename st)) eqn:Hf; [congruence|].
    rewrite key_ctrl_o_cancelled by assumption. auto.
Qed.



End CtrlO.

(** ** Load *)

Section Load.

Variable rt : runtime.

Lemma startup_inv (argv : list string) (w : world) (st : session) :
  startup rt argv w = Ok st →
  filename st = argv_filename argv
  ∧ load_text (argv_filename argv) w = Ok (text st)
  ∧ current_lang st = detect_lang rt (argv_filename argv)
  ∧ lexer st = lexer_for rt (current_lang st)
  ∧ current_eol st = "unix".
Proof.
  unfold startup. destruct (load_text _ w) as [t|e]; [|discriminate].
  intros [= <-]. simpl. auto.
Qed.

Lemma load_text_canonical (fname : option string) (w : world) (t : string) :
  load_text fname w = Ok t → has_char CR_char t = false.
Proof.
  unfold load_text. destruct fname as [f|]; [|intros [= <-]; reflexivity].
  destruct (file_opened _ w); [|intros [= <-]; reflexivity].
  destruct (read_chars w f); [|discriminate].
  intros [= <-]. apply universal_newlines_no_CR.
Qed.

Lemma load_text_not_opened (fname : option string) (w : world) :
  file_opened fname w = false → load_text fname w = Ok "".
Proof.
  intros H. unfold load_text. destruct fname; [|reflexivity].
  rewrite H. reflexivity.
Qed.

Lemma argv_filename_given (argv : list string) (path : string) :
  argv !! 1%nat = Some path → argv_filename argv = Some path.
Proof.
  intros H. unfold argv_filename.
  apply lookup_lt_Some in H as Hlt.
  destruct (Nat.ltb_spec 1 (List.length argv)); [exact H | lia].
Qed.

End Load.

Lemma count_terminators_none (s : string) :
  has_char CR_char s = false → has_char LF_char s = false →
  count_terminators s = {| n_crlf := 0; n_lf := 0; n_cr := 0 |}.
Proof.
  induction s as [|a s IH]; [reflexivity|].
  intros [Hcr Hs1]%has_char_cons_false [Hlf Hs2]%has_char_cons_false.
  cbn [count_terminators].
  rewrite (ascii_eqb_false _ _ Hcr), (ascii_eqb_false _ _ Hlf).
  apply IH; assumption.
Qed.

Lemma try_write_no_input_dialog (rt : runtime) (st : session) (we : option string)
    (title : string) :
  InputDialog title ∉ try_write rt st we.
Proof.
  unfold try_write. intros Hin.
  destruct (EOL_FORMATS !! current_eol st); [destruct we|];
    repeat (apply elem_of_cons in Hin as [Hin|Hin]; [discriminate|]);
    apply elem_of_nil in Hin; contradiction.
Qed.

Lemma try_write_no_exit (rt : runtime) (st : session) (we : option string) :
  AppExit ∉ try_write rt st we.
Proof.
  unfold try_write. intros Hin.
  destruct (EOL_FORMATS !! current_eol st); [destruct we|];
    repeat (apply elem_of_cons in Hin as [Hin|Hin]; [discriminate|]);
    apply elem_of_nil in Hin; contradiction.
Qed.

(** The save handler never ends the application. *)
Lemma key_ctrl_o_no_exit (rt : runtime) (st : session) (sa ec we : option string) :
  exits (key_ctrl_o rt st sa ec we).2 = false.
Proof.
  unfold exits. apply bool_decide_eq_false. intros Hin.
  destruct (truthy (save_target st sa)) eqn:Ht.
  - destruct (key_ctrl_o_target rt st sa ec we Ht) as (pre & Hpre & Hr).
    rewrite Hr in Hin. simpl in Hin.
    apply elem_of_app in Hin as [Hin|Hin].
    + destruct Hpre as [-> | ->].
      * apply elem_of_nil in Hin; contradiction.
      * apply list_elem_of_singleton in Hin. discriminate.
    + apply elem_of_cons in Hin as [Hin|Hin]; [discriminate|].
      eapply try_write_no_exit, Hin.
  - unfold save_target in Ht. destruct (truthy (filename st)) eqn:Hf; [congruence|].
    rewrite key_ctrl_o_cancelled in Hin by assumption.
    apply list_elem_of_singleton in Hin. discriminate.
Qed.

(** ** Ctrl+X *)

Lemma key_ctrl_x_state (rt : runtime) (st : session) (d : bool)
    (ans sa ec we : option string) :
  (key_ctrl_x rt st d ans sa ec we).1 = st
  ∨ (key_ctrl_x rt st d ans sa ec we).1 = (key_ctrl_o rt st sa ec we).1.
Proof.
  unfold key_ctrl_x. destruct d; [|auto].
  destruct (answers_yes rt ans); [|auto].
  destruct (key_ctrl_o rt st sa ec we). auto.
Qed.

(** ** Invariants of the event loop *)

Section Invariants.

Variable rt : runtime.

(** A property of the session kept by every handler holds after any
    sequence of events. *)
Lemma run_events_invariant (P : session → Prop) :
  (∀ st ev, P st → P (dispatch rt st ev).1) →
  ∀ evs st, P st → P (run_events rt st evs).1.
Proof.
  intros Hstep. induction evs as [|ev evs IH]; intros st HP; [exact HP|].
  cbn [run_events]. specialize (Hstep st ev HP).
  destruct (dispatch rt st ev) as [st1 tr1]. simpl in Hstep.
  destruct (exits tr1); [exact Hstep|].
  specialize (IH st1 Hstep). destruct (run_events rt st1 evs). exact IH.
Qed.

Ltac solve_supported :=
  apply (bool_decide_unpack _); vm_compute; exact I.

Lemma EXTENSIONS_supported (ext lang : string) :
  EXTENSIONS !! ext = Some lang → lang ∈ SUPPORTED_LANGS.
Proof.
  unfold EXTENSIONS. intros H%elem_of_list_to_map_2.
  repeat (apply elem_of_cons in H as [H|H]; [injection H as -> ->; solve_supported|]).
  apply elem_of_nil in H. contradiction.
Qed.

Lemma detect_lang_supported (fname : option string) :
  detect_lang rt fname ∈ SUPPORTED_LANGS.
Proof.
  unfold detect_lang. destruct fname as [f|]; [|solve_supported].
  destruct (String.eqb f ""); [solve_supported|].
  destruct (EXTENSIONS !! _) as [lang|] eqn:He; simpl.
  - eapply EXTENSIONS_supported, He.
  - solve_supported.
Qed.

Lemma dispatch_lang_supported (st : session) (ev : event) :
  lang_supported st → lang_supported (dispatch rt st ev).1.
Proof.
  unfold lang_supported. intros H. destruct ev as [sa ec we|d ans sa ec we|choice|t]; simpl.
  - destruct (key_ctrl_o_frame rt st sa ec we) as (_ & _ & ->). exact H.
  - destruct (key_ctrl_x_state rt st d ans sa ec we) as [-> | ->]; [exact H|].
    destruct (key_ctrl_o_frame rt st sa ec we) as (_ & _ & ->). exact H.
  - destruct (key_alt_l_lang rt st choice) as [-> | Hin]; assumption.
  - exact H.
Qed.




End Invariants.

(** C8: the active language is at all times a member of [SUPPORTED_LANGS]:
    it is one at startup, because the detection by extension only returns
    members (and "python" for no file name or an extension that is not in
    its table), and it stays one after any sequence of events, because the
    language handler assigns only a value it has found in the list. *)
Theorem current_lang_always_supported (rt : runtime) (argv : list string)
    (w : world) (st : session) (evs : list event) :
  startup rt argv w = Ok st →
  current_lang st ∈ SUPPORTED_LANGS
  ∧ current_lang (run_events rt st evs).1 ∈ SUPPORTED_LANGS
  ∧ (∀ fname, detect_lang rt fname ∈ SUPPORTED_LANGS)
  ∧ detect_lang rt None = "python"
  ∧ detect_lang rt (Some "") = "python"
  ∧ (∀ f, EXTENSIONS !! lstrip "."%char (lower rt (splitext f).2) = None →
          detect_lang rt (Some f) = "python")
  ∧ (∀ st' choice,
       current_lang (key_alt_l rt st' choice).1 = current_lang st'
       ∨ ∃ c, choice = Some c ∧ lower rt c ∈ SUPPORTED_LANGS
              ∧ current_lang (key_alt_l rt st' choice).1 = lower rt c).
Proof.
  intros (_ & _ & Hlang & _ & _)%startup_inv.
  assert (lang_supported st) as Hst.
  { unfold lang_supported. rewrite Hlang. apply detect_lang_supported. }
  split; [exact Hst|]. split.
  { apply (run_events_invariant rt lang_supported); [|exact Hst].
    apply dispatch_lang_supported. }
  split; [apply detect_lang_supported|].
  split; [reflexivity|]. split; [reflexivity|]. split.
  { intros f He. unfold detect_lang. rewrite He.
    destruct (String.eqb f ""); reflexivity. }
  intros st' choice. destruct (truthy choice) eqn:Ht.
  - destruct choice as [c|]; [|discriminate]. apply truthy_Some in Ht.
    destruct (decide (lower rt c ∈ SUPPORTED_LANGS)) as [Hin|Hin].
    + right. exists c. rewrite key_alt_l_member by assumption. auto.
    + left. rewrite key_alt_l_unknown by assumption. reflexivity.
  - left. rewrite key_alt_l_silent by exact Ht. reflexivity.
Qed.

Lemma current_lang_always_supported_witness :
  current_lang
    (run_events ascii_runtime
       {| filename := Some "src/main.rs"; text := ""; lexer := Some "rust";
          current_lang := "rust"; current_eol := "unix" |}
       [AltL (Some "zzz"); Edit "fn main() {}"; AltL (Some "Go");
        CtrlO None (Some "mac") None]).1
  ∈ SUPPORTED_LANGS.
Proof.
  eapply (current_lang_always_supported ascii_runtime ["sync"; "src/main.rs"] no_files).
  reflexivity.
Defined.



(** ** Running the script *)

Lemma name_is_unbound (st : session) (opened : bool) :
  load_name (module_globals st opened) "name" = None.
Proof. destruct opened; vm_compute; reflexivity. Qed.

Lemma dunder_name_is_main (st : session) (opened : bool) :
  load_name (module_globals st opened) "__name__" = Some (PStr "__main__").
Proof. destruct opened; vm_compute; reflexivity. Qed.

Lemma sync_py_does_not_compile : compile_error sync_py_lines = Some (TabError 134).
Proof. vm_compute. reflexivity. Qed.

Lemma respaced_compiles : compile_error sync_py_lines_respaced = None.
Proof. vm_compute. reflexivity. Qed.

(** * Further properties of the code *)

(** ** Load: failure and normalization *)

(** X2: Reading is idempotent on its result: a text that was read once is read
    back unchanged. *)
Theorem universal_newlines_idempotent (s : string) :
  universal_newlines (universal_newlines s) = universal_newlines s.
Proof. apply universal_newlines_canonical, universal_newlines_no_CR. Qed.

Lemma count_LF_replace_CR (s : string) :
  count_char LF_char (replace str_CR str_LF s)
  = count_char LF_char s + count_char CR_char s.
Proof.
  unfold str_CR. induction s as [|a s IH]; [reflexivity|].
  rewrite replace_char_cons.
  destruct (Ascii.eqb_spec a CR_char) as [->|Hne].
  - rewrite count_char_append, IH. simpl. lia.
  - simpl. rewrite IH, (ascii_eqb_false _ _ Hne). lia.
Qed.

Lemma breaks_after_CRLF_step (s : string) :
  (count_char LF_char (replace str_CRLF str_LF s)
   + count_char CR_char (replace str_CRLF str_LF s) = terminators s)
  ∧ ∀ a, count_char LF_char (replace str_CRLF str_LF (String a s))
         + count_char CR_char (replace str_CRLF str_LF (String a s))
         = terminators (String a s).
Proof.
  unfold terminators. induction s as [|b s [IH0 IH1]].
  - split; [reflexivity|]. intros a.
    destruct (ascii_dec a CR_char) as [->|Ha]; [reflexivity|].
    rewrite replace_CRLF_other by exact Ha. cbn [count_terminators count_char replace].
    rewrite (ascii_eqb_false _ _ Ha).
    destruct (Ascii.eqb a LF_char); reflexivity.
  - split; [apply IH1|]. intros a.
    destruct (ascii_dec a CR_char) as [->|Ha].
    + destruct (ascii_dec b LF_char) as [->|Hb].
      * rewrite replace_CRLF_match.
        change (str_LF +:+ ?x) with (String LF_char x).
        cbn [count_terminators count_char]. simpl Ascii.eqb. cbn [n_crlf n_lf n_cr].
        lia.
      * rewrite replace_CRLF_lone_CR
          by (rewrite prefix_LF_cons; apply ascii_eqb_false, Hb).
        specialize (IH1 b).
        cbn [count_char]. simpl (Ascii.eqb CR_char _).
        replace (count_terminators (String CR_char (String b s)))
          with {| n_crlf := n_crlf (count_terminators (String b s));
                  n_lf := n_lf (count_terminators (String b s));
                  n_cr := S (n_cr (count_terminators (String b s))) |}.
        -- cbn [n_crlf n_lf n_cr]. lia.
        -- cbn [count_terminators]. rewrite Ascii.eqb_refl.
           rewrite (ascii_eqb_false _ _ Hb). reflexivity.
    + rewrite replace_CRLF_other by exact Ha.
      specialize (IH1 b).
      cbn [count_char]. rewrite (ascii_eqb_false _ _ Ha).
      replace (count_terminators (String a (String b s)))
        with (let k := count_terminators (String b s) in
              if Ascii.eqb a LF_char
              then {| n_crlf := n_crlf k; n_lf := S (n_lf k); n_cr := n_cr k |}
              else k).
      * destruct (Ascii.eqb a LF_char); cbn [n_crlf n_lf n_cr]; lia.
      * cbn [count_terminators]. rewrite (ascii_eqb_false _ _ Ha). reflexivity.
Qed.

(** X3: Each terminator of the file, whether [\r\n], a lone [\n] or a lone
    [\r], becomes exactly one line break of the text in memory. *)
Theorem universal_newlines_counts_terminators (s : string) :
  count_char LF_char (universal_newlines s)
  = n_crlf (count_terminators s) + n_lf (count_terminators s)
    + n_cr (count_terminators s)
  ∧ count_char CR_char (universal_newlines s) = 0.
Proof.
  split.
  - unfold universal_newlines. rewrite count_LF_replace_CR.
    apply (breaks_after_CRLF_step s).
  - apply count_char_zero, universal_newlines_no_CR.
Qed.

(** ** Save: what is written, where, and in which mode *)

Lemma file_writes_app (tr1 tr2 : trace) :
  file_writes (tr1 ++ tr2) = file_writes tr1 ++ file_writes tr2.
Proof.
  induction tr1 as [|e tr1 IH]; [reflexivity|].
  destruct e; simpl; rewrite IH; reflexivity.
Qed.

Lemma choose_eol_set_filename (rt : runtime) (ec f : option string) (st : session) :
  current_eol (choose_eol rt ec (set_filename f st)) = current_eol (choose_eol rt ec st).
Proof.
  unfold choose_eol. destruct ec as [c|]; [|reflexivity].
  destruct (_ && _); reflexivity.
Qed.

Lemma no_lone_LF_serialize_dos (t : string) (after_CR : bool) :
  no_lone_LF after_CR (serialize_with str_CRLF t) = true.
Proof.
  unfold serialize_with, str_LF. revert after_CR.
  induction t as [|a t IH]; intros after_CR; [reflexivity|].
  rewrite replace_char_cons.
  destruct (Ascii.eqb_spec a LF_char) as [->|Hne].
  - change (str_CRLF +:+ ?x) with (String CR_char (String LF_char x)).
    cbn [no_lone_LF]. rewrite IH. reflexivity.
  - cbn [no_lone_LF]. rewrite (ascii_eqb_false _ _ Hne), IH. reflexivity.
Qed.

Lemma length_append (s1 s2 : string) :
  String.length (s1 +:+ s2) = String.length s1 + String.length s2.
Proof. induction s1 as [|a s1 IH]; simpl; [reflexivity | rewrite IH; reflexivity]. Qed.

Lemma length_replace_char (c : ascii) (new s : string) :
  String.length (replace (String c "") new s) + count_char c s
  = String.length s + count_char c s * String.length new.
Proof.
  induction s as [|a s IH]; [reflexivity|].
  rewrite replace_char_cons. cbn [count_char String.length].
  destruct (Ascii.eqb a c).
  - rewrite length_append. lia.
  - cbn [String.length]. lia.
Qed.

(** X6: The shape of what a save writes, for any text.  In mode "unix" it is
    the text as it is.  In mode "mac" it has the length of the text and no
    [\n] at all.  In mode "dos" it is longer by one character per line
    break and every [\n] in it follows a [\r]. *)
Theorem serialize_shapes (t : string) :
  serialize_with str_LF t = t
  ∧ has_char LF_char (serialize_with str_CR t) = false
  ∧ String.length (serialize_with str_CR t) = String.length t
  ∧ no_lone_LF false (serialize_with str_CRLF t) = true
  ∧ String.length (serialize_with str_CRLF t) = String.length t + count_char LF_char t.
Proof.
  split; [apply replace_char_self|].
  split; [apply replace_char_removes; reflexivity|].
  split.
  { pose proof (length_replace_char LF_char str_CR t) as H.
    unfold serialize_with, str_LF. simpl (String.length str_CR) in H. lia. }
  split; [apply no_lone_LF_serialize_dos|].
  pose proof (length_replace_char LF_char str_CRLF t) as H.
  unfold serialize_with, str_LF. simpl (String.length str_CRLF) in H. lia.
Qed.

(** ** The event loop: what each command can change *)

Section Frames.

Variable rt : runtime.

Lemma key_alt_l_frame (st : session) (choice : option string) :
  filename (key_alt_l rt st choice).1 = filename st
  ∧ text (key_alt_l rt st choice).1 = text st
  ∧ current_eol (key_alt_l rt st choice).1 = current_eol st.
Proof.
  unfold key_alt_l. destruct choice as [c|]; [|auto].
  destruct (negb _); [auto|]. destruct (in_supported _); auto.
Qed.

Lemma key_alt_l_trace (st : session) (choice : option string) :
  (key_alt_l rt st choice).2 = [InputDialog "Language"]
  ∨ (key_alt_l rt st choice).2 =
    [InputDialog "Language"; MessageDialog "Error" "Unknown language"].
Proof.
  unfold key_alt_l. destruct choice as [c|]; [|auto].
  destruct (negb _); [auto|]. destruct (in_supported _); auto.
Qed.

(** A field that every event of some kind leaves alone is unchanged by a
    run made of such events. *)
Lemma run_events_frame {A : Type} (f : session → A) (keeps : event → bool) :
  (∀ st ev, keeps ev = true → f (dispatch rt st ev).1 = f st) →
  ∀ evs st, forallb keeps evs = true → f (run_events rt st evs).1 = f st.
Proof.
  intros Hstep. induction evs as [|ev evs IH]; intros st Hall; [reflexivity|].
  simpl in Hall. apply andb_true_iff in Hall as [Hev Hall].
  cbn [run_events]. specialize (Hstep st ev Hev).
  destruct (dispatch rt st ev) as [st1 tr1]. simpl in Hstep.
  destruct (exits tr1); [exact Hstep|].
  specialize (IH st1 Hall). destruct (run_events rt st1 evs).
  simpl in IH |- *. congruence.
Qed.

Lemma dispatch_keeps_text (st : session) (ev : event) :
  negb (is_edit ev) = true → text (dispatch rt st ev).1 = text st.
Proof.
  destruct ev as [sa ec we|d ans sa ec we|choice|t]; simpl; intros H.
  - apply key_ctrl_o_frame.
  - destruct (key_ctrl_x_state rt st d ans sa ec we) as [-> | ->];
      [reflexivity | apply key_ctrl_o_frame].
  - apply key_alt_l_frame.
  - discriminate.
Qed.

Lemma dispatch_keeps_lang (st : session) (ev : event) :
  negb (is_alt_l ev) = true →
  (current_lang (dispatch rt st ev).1, lexer (dispatch rt st ev).1)
  = (current_lang st, lexer st).
Proof.
  destruct ev as [sa ec we|d ans sa ec we|choice|t]; simpl; intros H.
  - destruct (key_ctrl_o_frame rt st sa ec we) as (_ & -> & ->). reflexivity.
  - destruct (key_ctrl_x_state rt st d ans sa ec we) as [-> | ->]; [reflexivity|].
    destruct (key_ctrl_o_frame rt st sa ec we) as (_ & -> & ->). reflexivity.
  - discriminate.
  - reflexivity.
Qed.

Lemma dispatch_keeps_file (st : session) (ev : event) :
  negb (is_ctrl_o ev || is_ctrl_x ev) = true →
  (filename (dispatch rt st ev).1, current_eol (dispatch rt st ev).1)
  = (filename st, current_eol st).
Proof.
  destruct ev as [sa ec we|d ans sa ec we|choice|t]; simpl; intros H;
    try discriminate.
  - destruct (key_alt_l_frame st choice) as (-> & _ & ->). reflexivity.
  - reflexivity.
Qed.

End Frames.

(** X9: Each part of the session is changed only by its own command: the text
    only by editing (no handler touches the buffer), the language and the
    lexer only by Alt+L, the file name and the line-ending mode only by a
    save (from Ctrl+O or from the quit prompt). *)
Theorem state_changes_only_by_its_command (rt : runtime) (st : session)
    (evs : list event) :
  (forallb (λ ev, negb (is_edit ev)) evs = true →
     text (run_events rt st evs).1 = text st)
  ∧ (forallb (λ ev, negb (is_alt_l ev)) evs = true →
       current_lang (run_events rt st evs).1 = current_lang st
       ∧ lexer (run_events rt st evs).1 = lexer st)
  ∧ (forallb (λ ev, negb (is_ctrl_o ev || is_ctrl_x ev)) evs = true →
       filename (run_events rt st evs).1 = filename st
       ∧ current_eol (run_events rt st evs).1 = current_eol st).
Proof.
  split; [|split].
  - apply (run_events_frame rt text). apply dispatch_keeps_text.
  - intros Hall.
    pose proof (run_events_frame rt (λ s, (current_lang s, lexer s)) _
                  (dispatch_keeps_lang rt) evs st Hall) as H.
    simpl in H. injection H as -> ->. auto.
  - intros Hall.
    pose proof (run_events_frame rt (λ s, (filename s, current_eol s)) _
                  (dispatch_keeps_file rt) evs st Hall) as H.
    simpl in H. injection H as -> ->. auto.
Qed.

(** ** The event loop: file name and exit *)

Section Loop.

Variable rt : runtime.

Lemma not_in_app_trace (e : effect) (tr1 tr2 : trace) :
  e ∉ tr1 → e ∉ tr2 → e ∉ tr1 ++ tr2.
Proof. intros H1 H2 [H|H]%elem_of_app; contradiction. Qed.

(** One handler on a session that has a file name. *)
Lemma dispatch_bound (st : session) (ev : event) :
  truthy (filename st) = true →
  filename (dispatch rt st ev).1 = filename st
  ∧ (InputDialog "Save As" ∉ (dispatch rt st ev).2)
  ∧ ∀ p c, (p, c) ∈ file_writes (dispatch rt st ev).2 → filename st = Some p.
Proof.
  intros Hb.
  assert (∀ ec we,
    filename (save_body rt st ec we).1 = filename st
    ∧ (InputDialog "Save As" ∉ (save_body rt st ec we).2)
    ∧ ∀ p c, (p, c) ∈ file_writes (save_body rt st ec we).2 → filename st = Some p)
    as Hsave.
  { intros ec we. unfold save_body. cbn [fst snd].
    destruct (choose_eol_frame rt ec st) as (Hf & _).
    split; [exact Hf|]. split.
    - intros Hin. apply elem_of_cons in Hin as [Hin|Hin]; [discriminate|].
      eapply try_write_no_input_dialog, Hin.
    - intros p c Hin. cbn [file_writes] in Hin. unfold try_write in Hin.
      destruct (EOL_FORMATS !! _); [destruct we|]; simpl in Hin;
        try (apply elem_of_nil in Hin; contradiction).
      apply list_elem_of_singleton in Hin. injection Hin as -> _.
      rewrite Hf. destruct (filename st) as [f|]; [reflexivity | discriminate]. }
  destruct ev as [sa ec we|d ans sa ec we|choice|t]; simpl.
  - rewrite key_ctrl_o_bound by exact Hb. apply Hsave.
  - unfold key_ctrl_x. destruct d; [destruct (answers_yes rt ans)|].
    + rewrite key_ctrl_o_bound by exact Hb.
      destruct (Hsave ec we) as (Hf & Hno & Hw).
      destruct (save_body rt st ec we) as [st' tr]. cbn [fst snd] in *.
      split; [exact Hf|]. split.
      * intros Hin. apply elem_of_cons in Hin as [Hin|Hin]; [discriminate|].
        apply elem_of_app in Hin as [Hin|Hin]; [contradiction|].
        apply list_elem_of_singleton in Hin. discriminate.
      * intros p c Hin. cbn [file_writes] in Hin.
        rewrite file_writes_app in Hin. simpl in Hin. rewrite app_nil_r in Hin.
        eapply Hw, Hin.
    + split; [reflexivity|]. split.
      * intros Hin. repeat (apply elem_of_cons in Hin as [Hin|Hin]; [discriminate|]).
        apply elem_of_nil in Hin. contradiction.
      * intros p c Hin. apply elem_of_nil in Hin. contradiction.
    + split; [reflexivity|]. split.
      * intros Hin. repeat (apply elem_of_cons in Hin as [Hin|Hin]; [discriminate|]).
        apply elem_of_nil in Hin. contradiction.
      * intros p c Hin. apply elem_of_nil in Hin. contradiction.
  - destruct (key_alt_l_frame rt st choice) as (Hf & _).
    split; [exact Hf|]. split.
    + intros Hin. destruct (key_alt_l_trace rt st choice) as [Htr|Htr];
        rewrite Htr in Hin;
        repeat (apply elem_of_cons in Hin as [Hin|Hin]; [discriminate|]);
        apply elem_of_nil in Hin; contradiction.
    + intros p c Hin. destruct (key_alt_l_trace rt st choice) as [Htr|Htr];
        rewrite Htr in Hin; apply elem_of_nil in Hin; contradiction.
  - split; [reflexivity|]. split.
    + apply not_elem_of_nil.
    + intros p c Hin. apply elem_of_nil in Hin. contradiction.
Qed.

(** How one handler ends: only Ctrl+X exits, and then the exit is the
    last effect. *)
Lemma dispatch_exit (st : session) (ev : event) :
  (is_ctrl_x ev = false ∧ AppExit ∉ (dispatch rt st ev).2)
  ∨ (is_ctrl_x ev = true
     ∧ ∃ pre, (dispatch rt st ev).2 = pre ++ [AppExit] ∧ AppExit ∉ pre).
Proof.
  destruct ev as [sa ec we|d ans sa ec we|choice|t]; simpl.
  - left. split; [reflexivity|].
    pose proof (key_ctrl_o_no_exit rt st sa ec we) as H.
    unfold exits in H. apply bool_decide_eq_false in H. exact H.
  - right. split; [reflexivity|].
    unfold key_ctrl_x. destruct d; [destruct (answers_yes rt ans)|].
    + pose proof (key_ctrl_o_no_exit rt st sa ec we) as H.
      unfold exits in H. apply bool_decide_eq_false in H.
      destruct (key_ctrl_o rt st sa ec we) as [st' tr]. cbn [snd] in *.
      exists (InputDialog "Exit" :: tr). split; [reflexivity|].
      intros Hin. apply elem_of_cons in Hin as [Hin|Hin]; [discriminate | contradiction].
    + exists [InputDialog "Exit"]. split; [reflexivity|].
      intros Hin. apply list_elem_of_singleton in Hin. discriminate.
    + exists []. split; [reflexivity | apply not_elem_of_nil].
  - left. split; [reflexivity|].
    intros Hin. destruct (key_alt_l_trace rt st choice) as [Htr|Htr];
      rewrite Htr in Hin;
      repeat (apply elem_of_cons in Hin as [Hin|Hin]; [discriminate|]);
      apply elem_of_nil in Hin; contradiction.
  - left. split; [reflexivity | apply not_elem_of_nil].
Qed.

Lemma exits_iff (tr : trace) : exits tr = true ↔ AppExit ∈ tr.
Proof. unfold exits. apply bool_decide_eq_true. Qed.

Lemma run_events_bound (evs : list event) (st : session) :
  truthy (filename st) = true →
  filename (run_events rt st evs).1 = filename st
  ∧ (InputDialog "Save As" ∉ (run_events rt st evs).2)
  ∧ ∀ p c, (p, c) ∈ file_writes (run_events rt st evs).2 → filename st = Some p.
Proof.
  revert st. induction evs as [|ev evs IH]; intros st Hb.
  - split; [reflexivity|]. split; [apply not_elem_of_nil|].
    intros p c Hin. apply elem_of_nil in Hin. contradiction.
  - cbn [run_events].
    destruct (dispatch_bound st ev Hb) as (Hf & Hno & Hw).
    destruct (dispatch rt st ev) as [st1 tr1]. cbn [fst snd] in *.
    destruct (exits tr1); [auto|].
    assert (truthy (filename st1) = true) as Hb1 by (rewrite Hf; exact Hb).
    destruct (IH st1 Hb1) as (Hf2 & Hno2 & Hw2).
    destruct (run_events rt st1 evs) as [st2 tr2]. cbn [fst snd] in *.
    split; [congruence|]. split; [apply not_in_app_trace; assumption|].
    intros p c Hin. rewrite file_writes_app in Hin.
    apply elem_of_app in Hin as [Hin|Hin]; [eapply Hw, Hin|].
    rewrite <- Hf. eapply Hw2, Hin.
Qed.

Lemma run_events_exit (evs : list event) (st : session) :
  AppExit ∈ (run_events rt st evs).2 →
  existsb is_ctrl_x evs = true
  ∧ ∃ pre, (run_events rt st evs).2 = pre ++ [AppExit] ∧ AppExit ∉ pre.
Proof.
  revert st. induction evs as [|ev evs IH]; intros st Hin.
  - apply elem_of_nil in Hin. contradiction.
  - cbn [run_events] in Hin |- *. cbn [existsb].
    pose proof (dispatch_exit st ev) as Hd.
    destruct (dispatch rt st ev) as [st1 tr1]. cbn [fst snd] in *.
    destruct (exits tr1) eqn:Hex.
    + apply exits_iff in Hex.
      destruct Hd as [[_ Hno]|(-> & pre & Htr & Hpre)]; [contradiction|].
      split; [reflexivity|]. exists pre. auto.
    + assert (AppExit ∉ tr1) as Hno1.
      { intros H. apply exits_iff in H. congruence. }
      specialize (IH st1).
      destruct (run_events rt st1 evs) as [st2 tr2]. cbn [fst snd] in *.
      apply elem_of_app in Hin as [Hin|Hin]; [contradiction|].
      destruct (IH Hin) as (Hx & pre & -> & Hpre).
      split; [rewrite Hx; apply orb_true_r|].
      exists (tr1 ++ pre). split; [apply app_assoc|].
      apply not_in_app_trace; assumption.
Qed.

End Loop.

(** X11: A session that has a file name keeps it for good: whatever the events,
    the name is never changed, "Save As" is never asked, and every file
    written during the run is that file.  There is no way to save under
    another name. *)
Theorem bound_filename_is_kept (rt : runtime) (st : session) (evs : list event) :
  truthy (filename st) = true →
  filename (run_events rt st evs).1 = filename st
  ∧ (InputDialog "Save As" ∉ (run_events rt st evs).2)
  ∧ ∀ p c, (p, c) ∈ file_writes (run_events rt st evs).2 → filename st = Some p.
Proof. apply run_events_bound. Qed.

Lemma bound_filename_is_kept_witness :
  filename (run_events ascii_runtime st_python
              [CtrlO (Some "other.txt") (Some "dos") None; Edit "z";
               CtrlX true (Some "y") (Some "third.txt") None None]).1
  = Some "notes.txt".
Proof.
  apply (bound_filename_is_kept ascii_runtime st_python). reflexivity.
Defined.

(** X12: The application is left only through Ctrl+X: in the effects of a run
    an exit occurs only if a Ctrl+X was among the events, it occurs once,
    and it is the last effect, nothing being handled after it. *)
Theorem exit_only_by_ctrl_x (rt : runtime) (st : session) (evs : list event) :
  (AppExit ∈ (run_events rt st evs).2 →
     existsb is_ctrl_x evs = true
     ∧ ∃ pre, (run_events rt st evs).2 = pre ++ [AppExit] ∧ AppExit ∉ pre)
  ∧ (existsb is_ctrl_x evs = false → AppExit ∉ (run_events rt st evs).2)
  ∧ (∀ evs', AppExit ∈ (run_events rt st evs).2 →
       run_events rt st (evs ++ evs') = run_events rt st evs).
Proof.
  split; [apply run_events_exit|]. split.
  - intros Hno Hin. apply run_events_exit in Hin as [Hx _]. congruence.
  - intros evs'. revert st. induction evs as [|ev evs IH]; intros st Hin.
    + apply elem_of_nil in Hin. contradiction.
    + cbn [run_events app] in Hin |- *.
      destruct (dispatch rt st ev) as [st1 tr1].
      destruct (exits tr1) eqn:Hex; [reflexivity|].
      specialize (IH st1).
      destruct (run_events rt st1 evs) as [st2 tr2] eqn:Hrun. cbn [snd] in *.
      apply elem_of_app in Hin as [Hin|Hin].
      * apply exits_iff in Hin. congruence.
      * rewrite (IH Hin). reflexivity.
Qed.

(** ** Language detection: which part of the name counts *)

Lemma rfind_from_absent (c : ascii) (s : string) (i found : Z) :
  has_char c s = false → rfind_from c s i found = found.
Proof.
  revert i found. induction s as [|a s IH]; intros i found; [reflexivity|].
  intros [Hne Hs]%has_char_cons_false. cbn [rfind_from].
  rewrite (ascii_eqb_false _ _ Hne). apply IH, Hs.
Qed.

Lemma rfind_from_app (c : ascii) (s1 s2 : string) (i found : Z) :
  rfind_from c (s1 +:+ s2) i found
  = rfind_from c s2 (i + Z.of_nat (String.length s1))%Z (rfind_from c s1 i found).
Proof.
  revert i found. induction s1 as [|a s1 IH]; intros i found.
  - simpl. f_equal. lia.
  - change (String a s1 +:+ s2) with (String a (s1 +:+ s2)).
    cbn [rfind_from String.length]. rewrite IH. f_equal. lia.
Qed.

Lemma rfind_from_lt (c : ascii) (s : string) (i found : Z) :
  (found < i + Z.of_nat (String.length s))%Z →
  (rfind_from c s i found < i + Z.of_nat (String.length s))%Z.
Proof.
  revert i found. induction s as [|a s IH]; intros i found Hlt; [exact Hlt|].
  cbn [rfind_from String.length] in *.
  replace (i + Z.of_nat (S (String.length s)))%Z
    with ((i + 1) + Z.of_nat (String.length s))%Z by lia.
  apply IH. destruct (Ascii.eqb a c); lia.
Qed.

Lemma rfind_from_ge (c : ascii) (s : string) (i found : Z) :
  (found ≤ i)%Z → (found ≤ rfind_from c s i found)%Z.
Proof.
  revert i found. induction s as [|a s IH]; intros i found Hle; [simpl; lia|].
  cbn [rfind_from]. destruct (Ascii.eqb a c).
  - specialize (IH (i + 1)%Z i). lia.
  - apply IH. lia.
Qed.

Lemma rfind_from_only (c : ascii) (s : string) (i found : Z) :
  only_char c s = true → s ≠ "" →
  rfind_from c s i found = (i + Z.of_nat (String.length s) - 1)%Z.
Proof.
  revert i found. induction s as [|a s IH]; intros i found Hall Hne; [congruence|].
  cbn [only_char] in Hall. apply andb_true_iff in Hall as [Ha Hall].
  cbn [rfind_from String.length]. rewrite Ha.
  destruct s as [|b s]; [simpl; lia|].
  rewrite IH by (assumption || discriminate). cbn [String.length]. lia.
Qed.

Lemma append_cons (a : ascii) (s1 s2 : string) :
  String a s1 +:+ s2 = String a (s1 +:+ s2).
Proof. reflexivity. Qed.

Lemma append_empty_r (s : string) : s +:+ "" = s.
Proof. induction s as [|a s IH]; [reflexivity|]. rewrite append_cons, IH. reflexivity. Qed.

Lemma append_assoc (s1 s2 s3 : string) : (s1 +:+ s2) +:+ s3 = s1 +:+ (s2 +:+ s3).
Proof.
  induction s1 as [|a s1 IH]; [reflexivity|].
  rewrite !append_cons, IH. reflexivity.
Qed.

Lemma str_take_app (s1 s2 : string) : str_take (String.length s1) (s1 +:+ s2) = s1.
Proof.
  induction s1 as [|a s1 IH]; [destruct s2; reflexivity|].
  rewrite append_cons. cbn [String.length str_take]. rewrite IH. reflexivity.
Qed.

Lemma str_drop_app (s1 s2 : string) : str_drop (String.length s1) (s1 +:+ s2) = s2.
Proof.
  induction s1 as [|a s1 IH]; [reflexivity|].
  rewrite append_cons. cbn [String.length str_drop]. exact IH.
Qed.

Lemma get_app_length (s1 : string) (a : ascii) (s2 : string) :
  String.get (String.length s1) (s1 +:+ String a s2) = Some a.
Proof.
  induction s1 as [|b s1 IH]; [reflexivity|].
  rewrite append_cons. cbn [String.length String.get]. exact IH.
Qed.

(** Where the last separator and the last dot are, for a directory part
    that is empty or ends in the separator. *)
Lemma rfind_sep_dir (dir rest : string) :
  dir = "" ∨ (∃ d, dir = d +:+ "/") →
  has_char "/"%char rest = false →
  rfind "/"%char (dir +:+ rest) = (Z.of_nat (String.length dir) - 1)%Z.
Proof.
  intros Hdir Hrest. unfold rfind. rewrite rfind_from_app.
  rewrite rfind_from_absent by exact Hrest.
  destruct Hdir as [-> | [d ->]]; [reflexivity|].
  rewrite rfind_from_app. cbn [rfind_from]. rewrite Ascii.eqb_refl.
  rewrite length_append. simpl. lia.
Qed.

Lemma rfind_dot_dir (dir : string) :
  dir = "" ∨ (∃ d, dir = d +:+ "/") →
  (rfind "."%char dir < Z.of_nat (String.length dir) - 1)%Z
  ∨ (dir = "" ∧ rfind "."%char dir = (-1)%Z).
Proof.
  intros [-> | [d ->]]; [right; auto|]. left.
  unfold rfind. rewrite rfind_from_app. cbn [rfind_from].
  change (Ascii.eqb "/" ".") with false. cbv iota.
  rewrite length_append. simpl.
  pose proof (rfind_from_lt "."%char d 0 (-1)) as H. lia.
Qed.

Lemma splitext_base_without_dot (dir base : string) :
  dir = "" ∨ (∃ d, dir = d +:+ "/") →
  has_char "."%char base = false →
  splitext (dir +:+ base) = (dir +:+ base, "").
Proof.
  intros Hdir Hbase. unfold splitext.
  assert ((rfind "/"%char (dir +:+ base) <? rfind "."%char (dir +:+ base))%Z = false)
    as ->; [|reflexivity].
  apply Z.ltb_ge. unfold rfind at 1 2. rewrite !rfind_from_app.
  rewrite (rfind_from_absent "."%char base) by exact Hbase.
  fold (rfind "."%char dir). fold (rfind "/"%char dir).
  destruct Hdir as [-> | [d ->]].
  - change (rfind "."%char "") with (-1)%Z. change (rfind "/"%char "") with (-1)%Z.
    apply rfind_from_ge. simpl. lia.
  - destruct (rfind_dot_dir (d +:+ "/")) as [Hlt|[Habs _]]; [eauto| |].
    + pose proof (rfind_sep_dir (d +:+ "/") "" (or_intror (ex_intro _ d eq_refl)) eq_refl)
        as Hsep.
      rewrite append_empty_r in Hsep.
      rewrite Hsep.
      pose proof (rfind_from_ge "/"%char base
                    (0 + Z.of_nat (String.length (d +:+ "/")))
                    (Z.of_nat (String.length (d +:+ "/")) - 1)) as Hge.
      lia.
    + destruct d; discriminate Habs.
Qed.

Lemma detect_lang_no_ext (rt : runtime) (f : string) :
  lower rt "" = "" → splitext f = (f, "") → detect_lang rt (Some f) = "python".
Proof.
  intros Hlow Hsplit. unfold detect_lang. rewrite Hsplit. simpl. rewrite Hlow.
  destruct (String.eqb _ ""); reflexivity.
Qed.

(** X13: Dots in directory names do not count: when the part of the name after
    the last directory has no dot, the name has no extension, and the
    language is "python". *)
Theorem detect_lang_without_extension (rt : runtime) (dir base : string) :
  lower rt "" = "" →
  dir = "" ∨ (∃ d, dir = d +:+ "/") →
  has_char "."%char base = false →
  splitext (dir +:+ base) = (dir +:+ base, "")
  ∧ detect_lang rt (Some (dir +:+ base)) = "python".
Proof.
  intros Hlow Hdir Hbase.
  pose proof (splitext_base_without_dot dir base Hdir Hbase) as Hsplit.
  split; [exact Hsplit | apply detect_lang_no_ext; assumption].
Qed.

Lemma detect_lang_without_extension_witness :
  detect_lang ascii_runtime (Some "my.project/Makefile") = "python".
Proof.
  apply (detect_lang_without_extension ascii_runtime "my.project/" "Makefile").
  - reflexivity.
  - right. exists "my.project". reflexivity.
  - reflexivity.
Defined.

Lemma lstrip_absent (c : ascii) (s : string) : has_char c s = false → lstrip c s = s.
Proof.
  destruct s as [|a s]; [reflexivity|].
  intros [Hne _]%has_char_cons_false. simpl. rewrite (ascii_eqb_false _ _ Hne).
  reflexivity.
Qed.

Lemma ascii_lower_char_dot (c : ascii) : ascii_lower_char c = "."%char → c = "."%char.
Proof.
  destruct c as [[] [] [] [] [] [] [] []]; vm_compute; intros H;
    first [reflexivity | discriminate H].
Qed.

Lemma has_dot_lower (s : string) :
  has_char "."%char s = false →
  has_char "."%char (map_string ascii_lower_char s) = false.
Proof.
  induction s as [|a s IH]; [reflexivity|].
  intros [Hne Hs]%has_char_cons_false. cbn [map_string has_char].
  rewrite IH by exact Hs. rewrite ascii_eqb_false; [reflexivity|].
  intros H. apply Hne, ascii_lower_char_dot, H.
Qed.

Lemma only_char_has_char (c c' : ascii) (s : string) :
  only_char c s = true → c' ≠ c → has_char c' s = false.
Proof.
  intros Hall Hne. induction s as [|a s IH]; [reflexivity|].
  cbn [only_char] in Hall. apply andb_true_iff in Hall as [Ha Hall].
  apply Ascii.eqb_eq in Ha. subst a. cbn [has_char].
  rewrite IH by exact Hall. rewrite ascii_eqb_false by congruence. reflexivity.
Qed.

(** The loop over the leading dots finds nothing but dots. *)
Lemma finds_non_dot_dots (n : nat) (pre dots tail : string) :
  only_char "."%char dots = true → (n ≤ String.length dots)%nat →
  finds_non_dot (pre +:+ dots +:+ tail) (String.length pre) n = false.
Proof.
  revert pre dots. induction n as [|n IH]; intros pre dots Hall Hn; [reflexivity|].
  destruct dots as [|b dots]; [simpl in Hn; lia|].
  cbn [only_char] in Hall. apply andb_true_iff in Hall as [Hb Hall].
  apply Ascii.eqb_eq in Hb. subst b.
  cbn [finds_non_dot]. rewrite append_cons, get_app_length. rewrite Ascii.eqb_refl.
  replace (pre +:+ String "."%char (dots +:+ tail))
    with ((pre +:+ ".") +:+ dots +:+ tail)
    by (rewrite append_assoc; reflexivity).
  replace (S (String.length pre)) with (String.length (pre +:+ "."))
    by (rewrite length_append; simpl; lia).
  apply IH; [exact Hall|]. simpl in Hn. lia.
Qed.

(** X14: A name that begins with dots and has no other dot, such as ".bashrc",
    has no extension: the leading dots are not taken for the start of one,
    and the language is "python". *)
Theorem detect_lang_hidden_file (rt : runtime) (dir dots rest : string) :
  lower rt "" = "" →
  dir = "" ∨ (∃ d, dir = d +:+ "/") →
  only_char "."%char dots = true →
  has_char "."%char rest = false → has_char "/"%char rest = false →
  splitext (dir +:+ dots +:+ rest) = (dir +:+ dots +:+ rest, "")
  ∧ detect_lang rt (Some (dir +:+ dots +:+ rest)) = "python".
Proof.
  intros Hlow Hdir Hdots Hrest Hsl.
  assert (splitext (dir +:+ dots +:+ rest) = (dir +:+ dots +:+ rest, "")) as Hsplit.
  { destruct dots as [|b dots'] eqn:Hd.
    - apply splitext_base_without_dot; assumption.
    - rewrite <- Hd in *. assert (dots ≠ "") as Hne by (rewrite Hd; discriminate).
      clear Hd b dots'.
      unfold splitext.
      assert (rfind "/"%char (dir +:+ dots +:+ rest)
              = (Z.of_nat (String.length dir) - 1)%Z) as ->.
      { apply rfind_sep_dir; [exact Hdir|].
        rewrite has_char_append, Hsl.
        rewrite (only_char_has_char "."%char "/"%char dots Hdots) by discriminate.
        reflexivity. }
      assert (rfind "."%char (dir +:+ dots +:+ rest)
              = (Z.of_nat (String.length dir) + Z.of_nat (String.length dots) - 1)%Z)
        as ->.
      { unfold rfind. rewrite !rfind_from_app.
        rewrite (rfind_from_absent "."%char rest) by exact Hrest.
        rewrite rfind_from_only by assumption. lia. }
      assert (0 < String.length dots)%nat as Hlen by (destruct dots; [congruence | simpl; lia]).
      destruct (Z.ltb_spec (Z.of_nat (String.length dir) - 1)
                  (Z.of_nat (String.length dir) + Z.of_nat (String.length dots) - 1));
        [|lia].
      replace (Z.to_nat (Z.of_nat (String.length dir) - 1 + 1)) with (String.length dir)
        by lia.
      rewrite finds_non_dot_dots; [reflexivity | exact Hdots | lia]. }
  split; [exact Hsplit | apply detect_lang_no_ext; assumption].
Qed.

Lemma detect_lang_hidden_file_witness :
  detect_lang ascii_runtime (Some "home/.bashrc") = "python".
Proof.
  apply (detect_lang_hidden_file ascii_runtime "home/" "." "bashrc").
  - reflexivity.
  - right. exists "home". reflexivity.
  - reflexivity.
  - reflexivity.
  - reflexivity.
Defined.

Lemma splitext_last_extension (dir : string) (a : ascii) (stem ext : string) :
  dir = "" ∨ (∃ d, dir = d +:+ "/") →
  a ≠ "."%char → a ≠ "/"%char → has_char "/"%char stem = false →
  has_char "."%char ext = false → has_char "/"%char ext = false →
  splitext (dir +:+ String a stem +:+ "." +:+ ext)
  = (dir +:+ String a stem, "." +:+ ext).
Proof.
  intros Hdir Hdot Hsl Hstem Hext1 Hext2.
  unfold splitext.
  assert (rfind "/"%char (dir +:+ String a stem +:+ "." +:+ ext)
          = (Z.of_nat (String.length dir) - 1)%Z) as ->.
  { apply rfind_sep_dir; [exact Hdir|].
    rewrite append_cons. cbn [has_char]. rewrite (ascii_eqb_false _ _ Hsl).
    rewrite !has_char_append, Hstem, Hext2. reflexivity. }
  assert (rfind "."%char (dir +:+ String a stem +:+ "." +:+ ext)
          = Z.of_nat (String.length (dir +:+ String a stem))) as Hdi.
  { rewrite <- (append_assoc dir). rewrite <- (append_assoc (dir +:+ String a stem)).
    unfold rfind. rewrite (rfind_from_app _ ((dir +:+ String a stem) +:+ ".") ext).
    rewrite (rfind_from_absent "."%char ext) by exact Hext1.
    rewrite rfind_from_app. cbn [rfind_from]. rewrite Ascii.eqb_refl. lia. }
  rewrite Hdi.
  assert (String.length (dir +:+ String a stem)
          = String.length dir + S (String.length stem)) as Hlen
    by (rewrite length_append; reflexivity).
  destruct (Z.ltb_spec (Z.of_nat (String.length dir) - 1)
              (Z.of_nat (String.length (dir +:+ String a stem)))); [|lia].
  replace (Z.to_nat (Z.of_nat (String.length dir) - 1 + 1)) with (String.length dir)
    by lia.
  rewrite Nat2Z.id.
  replace (String.length (dir +:+ String a stem) - String.length dir)
    with (S (String.length stem)) by lia.
  cbn [finds_non_dot]. rewrite append_cons, get_app_length.
  rewrite (ascii_eqb_false _ _ Hdot).
  rewrite <- append_cons.
  rewrite <- (append_assoc dir (String a stem) ("." +:+ ext)).
  rewrite str_take_app, str_drop_app. reflexivity.
Qed.

(** X15: Only the last extension of the last path component decides, and its
    case does not matter: for a name [dir/stem.ext] whose stem does not
    begin with a dot, the language is the table entry of the lowercased
    [ext], and "python" when the table has none. *)
Theorem detect_lang_by_last_extension (rt : runtime) (dir : string) (a : ascii)
    (stem ext : string) :
  dir = "" ∨ (∃ d, dir = d +:+ "/") →
  a ≠ "."%char → a ≠ "/"%char → has_char "/"%char stem = false →
  has_char "."%char ext = false → has_char "/"%char ext = false →
  detect_lang rt (Some (dir +:+ String a stem +:+ "." +:+ ext))
  = default "python" (EXTENSIONS !! lstrip "."%char (lower rt ("." +:+ ext)))
  ∧ detect_lang ascii_runtime (Some (dir +:+ String a stem +:+ "." +:+ ext))
    = default "python" (EXTENSIONS !! lower ascii_runtime ext).
Proof.
  intros Hdir Hdot Hsl Hstem Hext1 Hext2.
  pose proof (splitext_last_extension dir a stem ext Hdir Hdot Hsl Hstem Hext1 Hext2)
    as Hsplit.
  assert (String.eqb (dir +:+ String a stem +:+ "." +:+ ext) "" = false) as Hne.
  { apply String.eqb_neq. intros H. apply (f_equal String.length) in H.
    rewrite length_append in H. simpl in H. lia. }
  assert (∀ rt', detect_lang rt' (Some (dir +:+ String a stem +:+ "." +:+ ext))
                 = default "python"
                     (EXTENSIONS !! lstrip "."%char (lower rt' ("." +:+ ext)))) as Hgen.
  { intros rt'. unfold detect_lang. rewrite Hne, Hsplit. reflexivity. }
  split; [apply Hgen|]. rewrite Hgen.
  change (lower ascii_runtime ("." +:+ ext))
    with (String "."%char (map_string ascii_lower_char ext)).
  cbn [lstrip]. rewrite Ascii.eqb_refl.
  rewrite lstrip_absent by (apply has_dot_lower, Hext1). reflexivity.
Qed.

Lemma detect_lang_by_last_extension_witness :
  detect_lang ascii_runtime (Some "src.old/main.tar.RS") = "rust".
Proof.
  apply (detect_lang_by_last_extension ascii_runtime "src.old/" "m"%char "ain.tar" "RS").
  - right. exists "src.old". reflexivity.
  - discriminate.
  - discriminate.
  - reflexivity.
  - reflexivity.
  - reflexivity.
Defined.

(** ** No write without a save command *)

Lemma dispatch_no_write (rt : runtime) (st : session) (ev : event) :
  negb (is_ctrl_o ev || is_ctrl_x ev) = true →
  file_writes (dispatch rt st ev).2 = [].
Proof.
  destruct ev as [sa ec we|d ans sa ec we|choice|t]; simpl; intros H;
    try discriminate; [|reflexivity].
  destruct (key_alt_l_trace rt st choice) as [-> | ->]; reflexivity.
Qed.

(** X17: Nothing is written behind the user's back: a run without Ctrl+O and
    without Ctrl+X, however much is edited and whatever languages are
    chosen, writes no file and does not exit. *)
Theorem no_write_without_save_command (rt : runtime) (st : session)
    (evs : list event) :
  forallb (λ ev, negb (is_ctrl_o ev || is_ctrl_x ev)) evs = true →
  file_writes (run_events rt st evs).2 = []
  ∧ AppExit ∉ (run_events rt st evs).2.
Proof.
  intros Hall. split.
  - revert st. induction evs as [|ev evs IH]; intros st; [reflexivity|].
    simpl in Hall. apply andb_true_iff in Hall as [Hev Hall].
    cbn [run_events]. pose proof (dispatch_no_write rt st ev Hev) as Hw.
    destruct (dispatch rt st ev) as [st1 tr1]. cbn [snd] in Hw.
    destruct (exits tr1); [exact Hw|].
    specialize (IH Hall st1). destruct (run_events rt st1 evs) as [st2 tr2].
    cbn [snd] in *. rewrite file_writes_app, Hw, IH. reflexivity.
  - intros Hin. apply run_events_exit in Hin as [Hx _].
    assert (existsb is_ctrl_x evs = false) as Hno.
    { clear Hx. induction evs as [|ev evs IH]; [reflexivity|].
      simpl in Hall |- *. apply andb_true_iff in Hall as [Hev Hall].
      rewrite (IH Hall). apply negb_true_iff, orb_false_iff in Hev as [_ ->].
      reflexivity. }
    congruence.
Qed.

Lemma no_write_without_save_command_witness :
  file_writes
    (run_events ascii_runtime st_python
       [Edit "print(1)"; AltL (Some "Go"); Edit ""; AltL None]).2 = [].
Proof.
  apply (no_write_without_save_command ascii_runtime st_python). reflexivity.
Defined.


(** * The handlers call by call *)

(** ** The two toolkits *)

Section Assumed.

Variable rt : runtime.

(** Over the assumed interfaces the handlers are [startup], [key_alt_l],
    [key_ctrl_o] and [key_ctrl_x]. *)
Lemma startup_assumed (argv : list string) (w : world) :
  startup_with assumed_toolkit rt argv w = startup rt argv w.
Proof.
  unfold startup_with, startup, lexer_for_with, lexer_for.
  destruct (load_text _ w) as [t|e]; [|reflexivity].
  destruct (get_lexer_by_name rt _); reflexivity.
Qed.

Lemma key_alt_l_assumed (st : session) (reply : option string) :
  key_alt_l_with assumed_toolkit rt st reply
  = {| final := (key_alt_l rt st reply).1; calls := (key_alt_l rt st reply).2;
       raised := None |}.
Proof.
  unfold key_alt_l_with, key_alt_l, lexer_for_with, lexer_for. simpl.
  destruct reply as [c|]; [|reflexivity].
  destruct (negb (truthy (Some c))); [reflexivity|]. simpl.
  destruct (in_supported (lower rt c)); [|reflexivity].
  destruct (get_lexer_by_name rt _); reflexivity.
Qed.

Lemma key_ctrl_o_assumed (st : session) (sa ec we : option string) :
  key_ctrl_o_with assumed_toolkit rt st sa ec (write_result_of we)
  = {| final := (key_ctrl_o rt st sa ec we).1; calls := (key_ctrl_o rt st sa ec we).2;
       raised := None |}.
Proof.
  assert (∀ s pre,
    save_body_with assumed_toolkit rt s pre ec (write_result_of we)
    = {| final := (save_body rt s ec we).1; calls := pre ++ (save_body rt s ec we).2;
         raised := None |}) as Hbody.
  { intros s pre. unfold save_body_with, save_body, try_write_with, try_write,
      report_error. simpl.
    destruct (EOL_FORMATS !! _); [destruct we|]; reflexivity. }
  unfold key_ctrl_o_with, key_ctrl_o. simpl.
  destruct (negb (truthy (filename st))).
  - destruct (negb (truthy sa)); [reflexivity|].
    rewrite Hbody. unfold save_body. reflexivity.
  - rewrite Hbody. reflexivity.
Qed.

Lemma key_ctrl_x_assumed (st : session) (flag : bool) (ans sa ec we : option string) :
  key_ctrl_x_with assumed_toolkit rt st flag ans sa ec (write_result_of we)
  = {| final := (key_ctrl_x rt st flag ans sa ec we).1;
       calls := (key_ctrl_x rt st flag ans sa ec we).2; raised := None |}.
Proof.
  unfold key_ctrl_x_with, key_ctrl_x. simpl.
  destruct flag; [|reflexivity].
  destruct (answers_yes rt ans); [|reflexivity].
  rewrite key_ctrl_o_assumed. simpl.
  destruct (key_ctrl_o rt st sa ec we). reflexivity.
Qed.


Lemma key_ctrl_o_installed (st : session) (sa ec : option string) (wr : write_result) :
  key_ctrl_o_with installed_toolkit rt st sa ec wr
  = {| final := st;
       calls := [InputDialog (if truthy (filename st) then "Select Line Ending"
                              else "Save As")];
       raised := Some nested_run_error |}.
Proof.
  unfold key_ctrl_o_with, save_body_with. simpl.
  destruct (truthy (filename st)); reflexivity.
Qed.


Lemma lexer_for_installed (lang : string) :
  lexer_for_with installed_toolkit rt lang
  = match get_lexer_by_name rt lang with
    | Some lx => Raise (TypeError lx)
    | None => Ok None
    end.
Proof. unfold lexer_for_with. destruct (get_lexer_by_name rt lang); reflexivity. Qed.

End Assumed.

(** ** Any toolkit *)

Section WithToolkit.

Variable tk : toolkit.
Variable rt : runtime.

Lemma report_error_calls (msg : string) :
  (report_error tk msg).1 = [MessageDialog "Error" msg]
  ∧ (report_error tk msg).2 = message_outcome tk "Error" msg.
Proof. split; reflexivity. Qed.

(** The write that fails, with a valid mode. *)
Lemma try_write_with_failed (st : session) (wr : write_result) (msg : string) :
  eol_valid st →
  wr = OpenFailed msg ∨ (∃ kept, wr = WriteFailed msg kept) →
  (try_write_with tk rt st wr).2 = message_outcome tk "Error" msg
  ∧ last (try_write_with tk rt st wr).1 = Some (MessageDialog "Error" msg)
  ∧ (∀ body, MessageDialog "Saved" body ∉ (try_write_with tk rt st wr).1).
Proof.
  intros [eol He] Hwr. unfold try_write_with. rewrite He.
  destruct Hwr as [-> | [kept ->]]; simpl; (split; [reflexivity|]);
    (split; [reflexivity|]); intros body Hin;
    repeat (apply elem_of_cons in Hin as [Hin|Hin]; [discriminate|]);
    apply elem_of_nil in Hin; contradiction.
Qed.

Lemma save_body_with_frame (st : session) (pre : trace) (ec : option string)
    (wr : write_result) :
  filename (final (save_body_with tk rt st pre ec wr)) = filename st
  ∧ text (final (save_body_with tk rt st pre ec wr)) = text st
  ∧ lexer (final (save_body_with tk rt st pre ec wr)) = lexer st
  ∧ current_lang (final (save_body_with tk rt st pre ec wr)) = current_lang st.
Proof.
  unfold save_body_with.
  destruct (run_input_dialog tk "Select Line Ending" ec) as [ec'|e]; simpl; [|auto].
  apply choose_eol_frame.
Qed.

Lemma key_ctrl_o_with_frame (st : session) (sa ec : option string) (wr : write_result) :
  text (final (key_ctrl_o_with tk rt st sa ec wr)) = text st
  ∧ lexer (final (key_ctrl_o_with tk rt st sa ec wr)) = lexer st
  ∧ current_lang (final (key_ctrl_o_with tk rt st sa ec wr)) = current_lang st.
Proof.
  unfold key_ctrl_o_with.
  destruct (negb (truthy (filename st)));
    [destruct (run_input_dialog tk "Save As" sa) as [fname|e];
       [destruct (negb (truthy fname))|]|]; simpl; auto.
  - destruct (save_body_with_frame (set_filename fname st) [InputDialog "Save As"] ec wr)
      as (_ & -> & -> & ->). auto.
  - destruct (save_body_with_frame st [] ec wr) as (_ & -> & -> & ->). auto.
Qed.

(** The handler once the target is known and the line-ending dialog has
    returned: it is at the write. *)
Lemma key_ctrl_o_with_at_write (st : session) (sa ec ec' : option string)
    (wr : write_result) (target : string) :
  asked_target tk st sa = Ok (Some target) → target ≠ "" →
  run_input_dialog tk "Select Line Ending" ec = Ok ec' →
  ∃ pre, (pre = [] ∨ pre = [InputDialog "Save As"])
    ∧ key_ctrl_o_with tk rt st sa ec wr
      = {| final := choose_eol rt ec' (set_filename (Some target) st);
           calls := pre ++ InputDialog "Select Line Ending"
                      :: (try_write_with tk rt
                            (choose_eol rt ec' (set_filename (Some target) st)) wr).1;
           raised := (try_write_with tk rt
                        (choose_eol rt ec' (set_filename (Some target) st)) wr).2 |}.
Proof.
  intros Htg Hne Hec. unfold asked_target in Htg. unfold key_ctrl_o_with.
  apply truthy_Some in Hne.
  destruct (truthy (filename st)) eqn:Hf; simpl.
  - injection Htg as Htg. exists []. split; [auto|].
    unfold save_body_with. rewrite Hec.
    replace (set_filename (Some target) st) with st
      by (destruct st; simpl in *; subst; reflexivity).
    reflexivity.
  - rewrite Htg, Hne. simpl. exists [InputDialog "Save As"]. split; [auto|].
    unfold save_body_with. rewrite Hec. reflexivity.
Qed.

(** A dialog that raises, or a "Save As" left empty, ends the handler
    before the write. *)
Lemma key_ctrl_o_with_before_write (st : session) (sa ec : option string)
    (wr : write_result) :
  (∀ target, asked_target tk st sa = Ok (Some target) → target = "") ∨
  (∃ e, run_input_dialog tk "Select Line Ending" ec = Raise e) →
  (∀ title body, MessageDialog title body ∉ calls (key_ctrl_o_with tk rt st sa ec wr))
  ∧ file_writes (calls (key_ctrl_o_with tk rt st sa ec wr)) = [].
Proof.
  intros Hcase. unfold asked_target in Hcase. unfold key_ctrl_o_with, save_body_with.
  assert (∀ title body (l : trace),
            (l = [InputDialog "Save As"] ∨ l = [InputDialog "Select Line Ending"]
             ∨ l = [InputDialog "Save As"; InputDialog "Select Line Ending"]) →
            MessageDialog title body ∉ l) as Hno.
  { intros title body l Hl Hin. destruct Hl as [-> | [-> | ->]];
      repeat (apply elem_of_cons in Hin as [Hin|Hin]; [discriminate|]);
      apply elem_of_nil in Hin; contradiction. }
  destruct (truthy (filename st)) eqn:Hf; simpl.
  - destruct Hcase as [Hempty | [e He]].
    + destruct (filename st) as [f|]; [|discriminate].
      specialize (Hempty f eq_refl). subst f. discriminate.
    + rewrite He. simpl. split; [|reflexivity].
      intros title body. apply Hno. auto.
  - destruct (run_input_dialog tk "Save As" sa) as [fname|e0] eqn:Hsa; simpl.
    + destruct (truthy fname) eqn:Ht; simpl.
      * destruct Hcase as [Hempty | [e He]].
        -- destruct fname as [f|]; [|discriminate].
           specialize (Hempty f eq_refl). subst f. discriminate.
        -- rewrite He. simpl. split; [|reflexivity].
           intros title body. apply Hno. auto.
      * split; [|reflexivity]. intros title body. apply Hno. auto.
    + split; [|reflexivity]. intros title body. apply Hno. auto.
Qed.

Lemma key_alt_l_with_frame (st : session) (reply : option string) :
  filename (final (key_alt_l_with tk rt st reply)) = filename st
  ∧ text (final (key_alt_l_with tk rt st reply)) = text st
  ∧ current_eol (final (key_alt_l_with tk rt st reply)) = current_eol st.
Proof.
  unfold key_alt_l_with.
  destruct (run_input_dialog tk "Language" reply) as [choice|e]; simpl; [|auto].
  destruct (negb (truthy choice)); simpl; [auto|].
  destruct (in_supported _); simpl; [|auto].
  destruct (lexer_for_with tk rt _); simpl; auto.
Qed.

(** The three ways the language handler goes once the dialog has
    returned a non-empty reply. *)
Lemma key_alt_l_with_reply (st : session) (reply : option string) (c : string) :
  run_input_dialog tk "Language" reply = Ok (Some c) → c ≠ "" →
  key_alt_l_with tk rt st reply =
  if in_supported (lower rt c) then
    match lexer_for_with tk rt (lower rt c) with
    | Raise e => {| final := st; calls := [InputDialog "Language"]; raised := Some e |}
    | Ok lx => {| final := set_language lx (lower rt c) st;
                  calls := [InputDialog "Language"]; raised := None |}
    end
  else {| final := st;
          calls := [InputDialog "Language"; MessageDialog "Error" "Unknown language"];
          raised := message_outcome tk "Error" "Unknown language" |}.
Proof.
  intros Hd Hc. unfold key_alt_l_with. rewrite Hd.
  apply truthy_Some in Hc. rewrite Hc. reflexivity.
Qed.

Lemma key_alt_l_with_silent (st : session) (reply choice : option string) :
  run_input_dialog tk "Language" reply = Ok choice → truthy choice = false →
  key_alt_l_with tk rt st reply
  = {| final := st; calls := [InputDialog "Language"]; raised := None |}.
Proof. intros Hd Ht. unfold key_alt_l_with. rewrite Hd, Ht. reflexivity. Qed.

Lemma key_alt_l_with_raises (st : session) (reply : option string) (e : exc) :
  run_input_dialog tk "Language" reply = Raise e →
  key_alt_l_with tk rt st reply
  = {| final := st; calls := [InputDialog "Language"]; raised := Some e |}.
Proof. intros Hd. unfold key_alt_l_with. rewrite Hd. reflexivity. Qed.

End WithToolkit.

(** ** Language selection *)

(** C1, as stated, fails on the empty input: it is not in the supported
    set, yet no error is reported, whether the dialog returns it (the
    handler returns at once) or raises. *)
Lemma language_rule_fails_on_empty_input :
  ¬ language_rule installed_toolkit ascii_runtime st_python ""
  ∧ ¬ language_rule assumed_toolkit ascii_runtime st_python "".
Proof.
  split; unfold language_rule; vm_compute; intros [_ Hin];
    apply list_elem_of_In in Hin; simpl in Hin; intuition discriminate.
Qed.

(** C1 (amended): for every input the language dialog returns to the
    handler, the input is lowercased before being checked.  An empty or
    cancelled input ends the handler at once: nothing changes and nothing
    is reported.  A non-empty input whose lowercased form is in the
    supported set becomes the active language once the lexer for it has
    been built.  Any other non-empty input leaves the session unchanged
    and is reported through the "Unknown language" message dialog.  The
    language changes in no other way and the error is reported for no
    other input.  In particular, with the language "python", the input
    "zzz" keeps "python" and is reported. *)
Theorem language_selection (tk : toolkit) (rt : runtime) (st : session)
    (reply : option string) :
  let o := key_alt_l_with tk rt st reply in
  (∀ choice, run_input_dialog tk "Language" reply = Ok choice → truthy choice = false →
     o = {| final := st; calls := [InputDialog "Language"]; raised := None |})
  ∧ (∀ c lx, run_input_dialog tk "Language" reply = Ok (Some c) → c ≠ "" →
       lower rt c ∈ SUPPORTED_LANGS → lexer_for_with tk rt (lower rt c) = Ok lx →
       o = {| final := set_language lx (lower rt c) st;
              calls := [InputDialog "Language"]; raised := None |}
       ∧ current_lang (final o) = lower rt c)
  ∧ (∀ c, run_input_dialog tk "Language" reply = Ok (Some c) → c ≠ "" →
       lower rt c ∉ SUPPORTED_LANGS →
       o = {| final := st;
              calls := [InputDialog "Language"; MessageDialog "Error" "Unknown language"];
              raised := message_outcome tk "Error" "Unknown language" |})
  ∧ (current_lang (final o) ≠ current_lang st →
       ∃ c, run_input_dialog tk "Language" reply = Ok (Some c) ∧ c ≠ ""
            ∧ lower rt c ∈ SUPPORTED_LANGS ∧ current_lang (final o) = lower rt c)
  ∧ (MessageDialog "Error" "Unknown language" ∈ calls o →
       ∃ c, run_input_dialog tk "Language" reply = Ok (Some c) ∧ c ≠ ""
            ∧ lower rt c ∉ SUPPORTED_LANGS)
  ∧ (current_lang st = "python" → reply = Some "zzz" →
     run_input_dialog tk "Language" reply = Ok reply → lower rt "zzz" = "zzz" →
       current_lang (final o) = "python"
       ∧ MessageDialog "Error" "Unknown language" ∈ calls o).
Proof.
  intros o. unfold o.
  assert (∀ c, run_input_dialog tk "Language" reply = Ok (Some c) → c ≠ "" →
            lower rt c ∉ SUPPORTED_LANGS →
            key_alt_l_with tk rt st reply
            = {| final := st;
                 calls := [InputDialog "Language";
                           MessageDialog "Error" "Unknown language"];
                 raised := message_outcome tk "Error" "Unknown language" |}) as Hunknown.
  { intros c Hd Hc Hin. rewrite (key_alt_l_with_reply tk rt st reply c Hd Hc).
    apply in_supported_false in Hin. rewrite Hin. reflexivity. }
  split; [|split; [|split; [exact Hunknown|split; [|split]]]].
  - intros choice Hd Ht. apply (key_alt_l_with_silent tk rt st reply choice Hd Ht).
  - intros c lx Hd Hc Hin Hlx.
    rewrite (key_alt_l_with_reply tk rt st reply c Hd Hc).
    apply in_supported_true in Hin. rewrite Hin, Hlx. auto.
  - intros Hchg.
    destruct (run_input_dialog tk "Language" reply) as [choice|e] eqn:Hd.
    + destruct (truthy choice) eqn:Ht.
      * destruct choice as [c|]; [|discriminate]. apply truthy_Some in Ht.
        rewrite (key_alt_l_with_reply tk rt st reply c Hd Ht) in Hchg |- *.
        destruct (in_supported (lower rt c)) eqn:Hin; [|simpl in Hchg; congruence].
        apply in_supported_true in Hin.
        destruct (lexer_for_with tk rt (lower rt c)); [|simpl in Hchg; congruence].
        exists c. auto.
      * rewrite (key_alt_l_with_silent tk rt st reply choice Hd Ht) in Hchg.
        simpl in Hchg. congruence.
    + rewrite (key_alt_l_with_raises tk rt st reply e Hd) in Hchg.
      simpl in Hchg. congruence.
  - intros Hin.
    destruct (run_input_dialog tk "Language" reply) as [choice|e] eqn:Hd.
    + destruct (truthy choice) eqn:Ht.
      * destruct choice as [c|]; [|discriminate]. apply truthy_Some in Ht.
        rewrite (key_alt_l_with_reply tk rt st reply c Hd Ht) in Hin.
        destruct (in_supported (lower rt c)) eqn:Hs.
        -- destruct (lexer_for_with tk rt (lower rt c)); simpl in Hin;
             apply list_elem_of_singleton in Hin; discriminate.
        -- exists c. apply in_supported_false in Hs. auto.
      * rewrite (key_alt_l_with_silent tk rt st reply choice Hd Ht) in Hin.
        apply list_elem_of_singleton in Hin. discriminate.
    + rewrite (key_alt_l_with_raises tk rt st reply e Hd) in Hin.
      apply list_elem_of_singleton in Hin. discriminate.
  - intros Hpy -> Hd Hlow.
    rewrite (Hunknown "zzz" Hd); [| discriminate |].
    + simpl. split; [exact Hpy|]. apply list_elem_of_further, list_elem_of_here.
    + rewrite Hlow. apply (bool_decide_unpack _). vm_compute. exact I.
Qed.

(** ** Load *)

(** C2, as stated, fails on a file whose lines all end in CRLF: detection
    would give CRLF; the module body either stops at the editor's lexer or
    starts in "unix". *)
Lemma load_does_not_detect_CRLF :
  ¬ load_detects_eol installed_toolkit ascii_runtime ["sync"; "notes.txt"] crlf_file
      (default "" (read_chars crlf_file "notes.txt"))
  ∧ ¬ load_detects_eol assumed_toolkit ascii_runtime ["sync"; "notes.txt"] crlf_file
        (default "" (read_chars crlf_file "notes.txt")).
Proof.
  split; intros (st & Hst & He).
  - vm_compute in Hst. discriminate Hst.
  - vm_compute in Hst. injection Hst as <-. vm_compute in He. discriminate He.
Qed.

(** C2 (amended): no detection takes place at load.  The text-mode read
    turns every [\r\n] and lone [\r] of the file into [\n], so the text
    read holds no carriage return, and two files that differ only in
    their line terminators start the editor alike.  The only mode the
    script starts a session with is the constant "unix" (LF), whatever
    terminators the file has.  That mode agrees with the majority vote
    exactly when the vote gives LF, which includes every empty or
    terminator-free input. *)
Theorem startup_eol_is_unix (tk : toolkit) (rt : runtime) (argv : list string)
    (w : world) :
  (∀ f chars, argv !! 1%nat = Some f → f ≠ "" → path_exists w f = true →
     read_chars w f = Some chars →
     load_text (argv_filename argv) w = Ok (universal_newlines chars))
  ∧ (∀ t, load_text (argv_filename argv) w = Ok t → has_char CR_char t = false)
  ∧ (∀ w', (∀ f, path_exists w' f = path_exists w f) →
       (∀ f, universal_newlines <$> read_chars w' f
             = universal_newlines <$> read_chars w f) →
       startup_with tk rt argv w' = startup_with tk rt argv w)
  ∧ (∀ st, startup_with tk rt argv w = Ok st →
       current_eol st = mode_key LF
       ∧ EOL_FORMATS !! current_eol st = Some str_LF
       ∧ load_text (argv_filename argv) w = Ok (text st))
  ∧ (∀ chars, mode_key LF = mode_key (spec_detect chars) ↔ spec_detect chars = LF)
  ∧ (∀ chars, has_char CR_char chars = false → has_char LF_char chars = false →
       spec_detect chars = LF).
Proof.
  split; [|split; [|split; [|split; [|split]]]].
  - intros f chars Harg Hf Hex Hrd.
    rewrite (argv_filename_given argv f Harg). unfold load_text, file_opened.
    rewrite (proj2 (truthy_Some f) Hf), Hex, Hrd. reflexivity.
  - intros t. apply load_text_canonical.
  - intros w' Hex Hrd. unfold startup_with.
    assert (load_text (argv_filename argv) w' = load_text (argv_filename argv) w) as ->;
      [|reflexivity].
    unfold load_text, file_opened. destruct (argv_filename argv) as [f|]; [|reflexivity].
    rewrite Hex. destruct (truthy (Some f) && path_exists w f); [|reflexivity].
    specialize (Hrd f).
    destruct (read_chars w' f) as [c'|], (read_chars w f) as [c|]; simpl in Hrd;
      first [discriminate Hrd | reflexivity | idtac].
    injection Hrd as ->. reflexivity.
  - intros st. unfold startup_with.
    destruct (load_text _ w) as [t|e]; [|discriminate].
    destruct (lexer_for_with tk rt _); [|discriminate].
    intros [= <-]. simpl. auto.
  - intros chars. destruct (spec_detect chars); simpl; split; intros H;
      first [reflexivity | discriminate H].
  - intros chars H1 H2. unfold spec_detect.
    rewrite count_terminators_none by assumption. reflexivity.
Qed.

(** ** Save *)


(** ** A path that does not exist *)

(** C5, as stated, fails: started on a path that does not exist, no
    session is unbound.  Over the assumed interfaces the session is bound
    to the path; with the libraries as they are none is started. *)
Lemma missing_path_is_bound :
  ¬ starts_unbound assumed_toolkit ascii_runtime ["sync"; "new.txt"] no_files
  ∧ ¬ starts_unbound installed_toolkit ascii_runtime ["sync"; "new.txt"] no_files.
Proof.
  split; intros (st & Hst & _ & Hf & _).
  - vm_compute in Hst. injection Hst as <-. discriminate Hf.
  - vm_compute in Hst. discriminate Hst.
Qed.

(** C5 (amended): when the editor is started with a path that does not
    exist, the file name is that path and the text is empty: only the read
    is skipped.  Every session the module body starts is then bound to the
    path with an empty text.  A save on a session bound to a non-empty
    path does not ask for a destination: its first call is the line-ending
    dialog, it writes to no other file and it leaves the session bound to
    the path.  A save asks for a destination first when no file name is
    bound, which is how the editor starts when it is given no argument. *)
Theorem missing_path_stays_bound (tk : toolkit) (rt : runtime) (argv : list string)
    (w : world) (path : string) :
  argv !! 1%nat = Some path → path_exists w path = false →
  argv_filename argv = Some path
  ∧ load_text (argv_filename argv) w = Ok ""
  ∧ (∀ st, startup_with tk rt argv w = Ok st → filename st = Some path ∧ text st = "")
  ∧ (∀ st sa ec wr, filename st = Some path → path ≠ "" →
       let o := key_ctrl_o_with tk rt st sa ec wr in
       head (calls o) = Some (InputDialog "Select Line Ending")
       ∧ (InputDialog "Save As" ∉ calls o)
       ∧ (∀ p c, (p, c) ∈ file_writes (calls o) → p = path)
       ∧ filename (final o) = Some path)
  ∧ (∀ st sa ec wr, truthy (filename st) = false →
       head (calls (key_ctrl_o_with tk rt st sa ec wr)) = Some (InputDialog "Save As"))
  ∧ (∀ prog, argv_filename [prog] = None).
Proof.
  intros Harg Hex.
  assert (argv_filename argv = Some path) as Hfn by exact (argv_filename_given argv path Harg).
  assert (load_text (argv_filename argv) w = Ok "") as Hload.
  { rewrite Hfn. unfold load_text, file_opened. rewrite Hex, andb_false_r. reflexivity. }
  split; [exact Hfn|]. split; [exact Hload|]. split; [|split; [|split]].
  - intros st. unfold startup_with. rewrite Hload.
    destruct (lexer_for_with tk rt _); [|discriminate].
    intros [= <-]. simpl. auto.
  - intros st sa ec wr Hf Hne o. unfold o, key_ctrl_o_with, save_body_with.
    rewrite Hf, (proj2 (truthy_Some path) Hne). simpl.
    destruct (run_input_dialog tk "Select Line Ending" ec) as [ec'|e]; simpl.
    + split; [reflexivity|].
      assert (filename (choose_eol rt ec' st) = Some path) as Hf'.
      { destruct (choose_eol_frame rt ec' st) as (-> & _). exact Hf. }
      split; [|split; [|exact Hf']].
      * intros Hin. apply elem_of_cons in Hin as [Hin|Hin]; [discriminate|].
        revert Hin. unfold try_write_with, report_error.
        destruct (EOL_FORMATS !! _); [destruct wr; [destruct (run_message_dialog _ _ _)|..]|];
          simpl; intros Hin;
          repeat (apply elem_of_cons in Hin as [Hin|Hin]; [discriminate|]);
          apply elem_of_nil in Hin; contradiction.
      * intros p c. unfold try_write_with, report_error. rewrite Hf'.
        destruct (EOL_FORMATS !! _); [destruct wr; [destruct (run_message_dialog _ _ _)|..]|];
          simpl; intros Hin;
          repeat (apply elem_of_cons in Hin as [Hin|Hin]; [congruence|]);
          apply elem_of_nil in Hin; contradiction.
    + split; [reflexivity|]. split; [|split; [|exact Hf]].
      * intros Hin. apply list_elem_of_singleton in Hin. discriminate.
      * intros p c Hin. apply elem_of_nil in Hin. contradiction.
  - intros st sa ec wr Hf. unfold key_ctrl_o_with. rewrite Hf. simpl.
    destruct (run_input_dialog tk "Save As" sa) as [fname|e]; [|reflexivity].
    destruct (negb (truthy fname)); [reflexivity|].
    unfold save_body_with.
    destruct (run_input_dialog tk "Select Line Ending" ec); reflexivity.
  - intros prog. reflexivity.
Qed.

Lemma missing_path_stays_bound_witness :
  argv_filename ["sync"; "new.txt"] = Some "new.txt"
  ∧ load_text (argv_filename ["sync"; "new.txt"]) no_files = Ok "".
Proof.
  destruct (missing_path_stays_bound installed_toolkit ascii_runtime
              ["sync"; "new.txt"] no_files "new.txt") as (H1 & H2 & _).
  - reflexivity.
  - reflexivity.
  - split; [exact H1 | exact H2].
Defined.

(** ** A save that fails *)

(** C6, as stated, fails: a failed save is not without a change of state.
    Over the assumed interfaces the mode chosen in the dialog stays; with
    the libraries as they are the handler ends before any error dialog. *)
Lemma failed_save_changes_eol :
  ¬ save_failure_atomic assumed_toolkit ascii_runtime st_python None (Some "dos")
      "Permission denied"
  ∧ ¬ save_failure_atomic installed_toolkit ascii_runtime st_python None (Some "dos")
        "Permission denied".
Proof.
  split.
  - intros (_ & _ & Hst). vm_compute in Hst. discriminate Hst.
  - intros (Hin & _). vm_compute in Hin.
    apply list_elem_of_singleton in Hin. discriminate Hin.
Qed.

(** C6 (amended): if the write of a save raises an error, the handler
    reports it by calling the error message dialog with the error's text,
    as its last call, and ends the way that dialog ends; no "Saved" dialog
    is called.  The in-memory text is left unchanged, and so are the
    language and the lexer.  The file name and the EOL mode taken from the
    dialogs before the write are kept: they are not rolled back. *)
Theorem save_failure_keeps_text (tk : toolkit) (rt : runtime) (st : session)
    (sa ec : option string) (wr : write_result) (msg : string) :
  eol_valid st →
  wr = OpenFailed msg ∨ (∃ kept, wr = WriteFailed msg kept) →
  let o := key_ctrl_o_with tk rt st sa ec wr in
  text (final o) = text st
  ∧ current_lang (final o) = current_lang st
  ∧ lexer (final o) = lexer st
  ∧ (∀ target ec', asked_target tk st sa = Ok (Some target) → target ≠ "" →
       run_input_dialog tk "Select Line Ending" ec = Ok ec' →
       last (calls o) = Some (MessageDialog "Error" msg)
       ∧ raised o = message_outcome tk "Error" msg
       ∧ (∀ body, MessageDialog "Saved" body ∉ calls o)
       ∧ filename (final o) = Some target
       ∧ current_eol (final o) = current_eol (choose_eol rt ec' st)
       ∧ (∀ c, ec' = Some c → c ≠ "" → is_Some (EOL_FORMATS !! lower rt c) →
            current_eol (final o) = lower rt c)).
Proof.
  intros Hv Hwr o. unfold o.
  destruct (key_ctrl_o_with_frame tk rt st sa ec wr) as (Ht & Hlx & Hl).
  split; [exact Ht|]. split; [exact Hl|]. split; [exact Hlx|].
  intros target ec' Htg Hne Hec.
  destruct (key_ctrl_o_with_at_write tk rt st sa ec ec' wr target Htg Hne Hec)
    as (pre & Hpre & ->). simpl.
  assert (eol_valid (choose_eol rt ec' (set_filename (Some target) st))) as Hv'.
  { apply choose_eol_valid. exact Hv. }
  destruct (try_write_with_failed tk rt _ wr msg Hv' Hwr) as (Hr & Hlast & Hsaved).
  split; [|split; [exact Hr|split; [|split; [|split]]]].
  - rewrite last_app, last_cons, Hlast. reflexivity.
  - intros body Hin. apply elem_of_app in Hin as [Hin|Hin].
    + destruct Hpre as [-> | ->].
      * apply elem_of_nil in Hin. contradiction.
      * apply list_elem_of_singleton in Hin. discriminate.
    + apply elem_of_cons in Hin as [Hin|Hin]; [discriminate|].
      exact (Hsaved body Hin).
  - destruct (choose_eol_frame rt ec' (set_filename (Some target) st)) as (-> & _).
    reflexivity.
  - apply choose_eol_set_filename.
  - intros c -> Hc [eol He]. rewrite choose_eol_set_filename.
    unfold choose_eol. rewrite (proj2 (truthy_Some c) Hc).
    rewrite (proj2 (in_eol_formats_true (lower rt c)) (ex_intro _ eol He)).
    reflexivity.
Qed.

Lemma save_failure_keeps_text_witness :
  text (final (key_ctrl_o_with assumed_toolkit ascii_runtime st_python None (Some "dos")
                 (WriteFailed "No space left on device" "")))
  = text st_python.
Proof.
  eapply (save_failure_keeps_text assumed_toolkit ascii_runtime st_python None
            (Some "dos") (WriteFailed "No space left on device" "")
            "No space left on device").
  - exists str_LF. reflexivity.
  - right. exists "". reflexivity.
Defined.

(** ** Quit *)

(** C7, as stated, fails: cancelling the prompt does not return to the
    session.  Over the assumed interfaces the handler exits; with the
    libraries as they are it ends before any prompt. *)
Lemma cancel_exits :
  ¬ cancel_keeps_session assumed_toolkit ascii_runtime st_python None None Written
  ∧ ¬ cancel_keeps_session installed_toolkit ascii_runtime st_python None None Written.
Proof.
  split.
  - intros (_ & Hno & _). apply Hno. vm_compute.
    apply list_elem_of_further, list_elem_of_here.
  - intros (Hin & _). vm_compute in Hin. apply elem_of_nil in Hin. exact Hin.
Qed.

(** C7 (amended): when the quit command is issued while there are unsaved
    changes, the handler asks one question, "Save before exit? (y/n)".
    The answer "y", in either case, runs the save handler and, when that
    returns, exits.  Every other answer the prompt returns, an empty one
    and a cancelled prompt included, exits without saving and with the
    session unchanged.  No answer returns to the editing session:
    whenever the handler returns, its last call is the exit. *)
Theorem key_ctrl_x_always_exits (tk : toolkit) (rt : runtime) (st : session)
    (flag : bool) (ans sa ec : option string) (wr : write_result) :
  let o := key_ctrl_x_with tk rt st flag ans sa ec wr in
  (raised o = None → last (calls o) = Some AppExit)
  ∧ (get_is_dirty tk flag = Ok false →
       o = {| final := st; calls := [AppExit]; raised := None |})
  ∧ (∀ a, get_is_dirty tk flag = Ok true → run_input_dialog tk "Exit" ans = Ok a →
       answers_yes rt a = false →
       o = {| final := st; calls := [InputDialog "Exit"; AppExit]; raised := None |})
  ∧ (∀ a, get_is_dirty tk flag = Ok true → run_input_dialog tk "Exit" ans = Ok a →
       answers_yes rt a = true →
       let s := key_ctrl_o_with tk rt st sa ec wr in
       final o = final s
       ∧ raised o = raised s
       ∧ calls o = InputDialog "Exit" :: calls s
                     ++ (if raised s is None then [AppExit] else []))
  ∧ answers_yes rt None = false
  ∧ answers_yes rt (Some "") = false
  ∧ (∀ a, answers_yes rt (Some a) = true ↔ a ≠ "" ∧ lower rt a = "y").
Proof.
  intros o. unfold o, key_ctrl_x_with.
  split; [|split; [|split; [|split; [|split; [|split]]]]].
  - destruct (get_is_dirty tk flag) as [[|]|e]; simpl; [|reflexivity|discriminate].
    destruct (run_input_dialog tk "Exit" ans) as [a|e]; simpl; [|discriminate].
    destruct (answers_yes rt a); [|reflexivity].
    destruct (raised (key_ctrl_o_with tk rt st sa ec wr)); simpl; [discriminate|].
    intros _. rewrite last_cons, last_snoc. reflexivity.
  - intros ->. reflexivity.
  - intros a -> -> ->. reflexivity.
  - intros a -> -> ->. simpl.
    destruct (raised (key_ctrl_o_with tk rt st sa ec wr)); simpl;
      rewrite ?app_nil_r; auto.
  - reflexivity.
  - reflexivity.
  - intros a. unfold answers_yes. split.
    + intros [Ht He]%andb_true_iff. split.
      * apply truthy_Some in Ht. exact Ht.
      * apply String.eqb_eq in He. exact He.
    + intros [Hne He]. rewrite (proj2 (truthy_Some a) Hne), He. reflexivity.
Qed.

(** ** Running the script *)

(** C10, as stated, fails: running the script does not end in the
    [NameError] of the guard. *)
Lemma script_raises_TabError :
  ¬ guard_raises_NameError ascii_runtime ["sync.py"] no_files.
Proof. unfold guard_raises_NameError. vm_compute. discriminate. Qed.

(** C10 (amended): the entry-point guard compares the identifier [name],
    which no statement of the module binds and which is no builtin, where
    [__name__] holds "__main__"; a guard reading an unbound [name] raises
    [NameError].  Executing the file as a program raises [TabError] when
    the file is compiled, for line 134, before any statement runs, and
    [main()], hence [app.run()], is never reached: with this guard no run
    of the file gets to it, whatever the libraries do. *)
Theorem script_never_runs_app (rt : runtime) (argv : list string) (w : world) :
  run_script rt argv w = Raise (TabError 134)
  ∧ compile_error sync_py_lines = Some (TabError 134)
  ∧ (∀ tk lines tr, run_file tk rt lines "name" argv w ≠ Ok tr)
  ∧ (∀ st opened, load_name (module_globals st opened) "name" = None)
  ∧ (∀ st opened, load_name (module_globals st opened) "__name__" = Some (PStr "__main__"))
  ∧ (∀ g, load_name g "name" = None → entry_guard "name" g = Raise (NameError "name")).
Proof.
  split; [|split; [|split; [|split; [|split]]]].
  - unfold run_script, run_file. rewrite sync_py_does_not_compile. reflexivity.
  - exact sync_py_does_not_compile.
  - intros tk lines tr. unfold run_file, exec_module.
    destruct (compile_error lines); [discriminate|].
    destruct (startup_with tk rt argv w) as [st|e]; [|discriminate].
    unfold entry_guard. rewrite name_is_unbound. discriminate.
  - exact name_is_unbound.
  - exact dunder_name_is_main.
  - intros g Hg. unfold entry_guard. rewrite Hg. reflexivity.
Qed.

(** * The libraries as they are *)

Example startup_installed_TypeError :
  startup_with installed_toolkit ascii_runtime ["sync"; "main.rs"] no_files
  = Raise (TypeError "rust").
Proof. vm_compute. reflexivity. Qed.

Example startup_installed_unreadable :
  startup_with installed_toolkit ascii_runtime ["sync"; "locked.txt"] unreadable_file
  = Raise (OSError "locked.txt").
Proof. vm_compute. reflexivity. Qed.

Example startup_installed_without_lexer :
  startup_with installed_toolkit (no_lexers ascii_runtime) ["sync"; "main.rs"] no_files
  = Ok {| filename := Some "main.rs"; text := ""; lexer := None;
          current_lang := "rust"; current_eol := "unix" |}.
Proof. vm_compute. reflexivity. Qed.

Example save_installed :
  key_ctrl_o_with installed_toolkit ascii_runtime st_python None (Some "dos") Written
  = {| final := st_python; calls := [InputDialog "Select Line Ending"];
       raised := Some nested_run_error |}.
Proof. vm_compute. reflexivity. Qed.

Example failed_write_empties_the_file :
  file_writes
    (calls (key_ctrl_o_with assumed_toolkit ascii_runtime st_python None (Some "dos")
              (WriteFailed "No space left on device" "")))
  = [("notes.txt", "")].
Proof. vm_compute. reflexivity. Qed.

(** X1: the module body up to the editor.  The load has no error
    handling: a file that exists and cannot be read ends the body with the
    error of the read.  Otherwise the body goes on to the lexer of the
    editor, and with the libraries as they are it ends there with
    [TypeError] whenever pygments has a lexer for the detected language; a
    session starts only when it has none, without highlighting, bound to
    the argument, in mode "unix".  Under any libraries, a session that
    starts is bound to the argument, holds the text of the load, has the
    language detected from the name and the mode "unix". *)
Theorem startup_with_installed (rt : runtime) (argv : list string) (w : world) :
  startup_with installed_toolkit rt argv w
  = match load_text (argv_filename argv) w with
    | Raise e => Raise e
    | Ok t =>
        match get_lexer_by_name rt (detect_lang rt (argv_filename argv)) with
        | Some lx => Raise (TypeError lx)
        | None => Ok {| filename := argv_filename argv; text := t; lexer := None;
                        current_lang := detect_lang rt (argv_filename argv);
                        current_eol := "unix" |}
        end
    end
  ∧ (∀ e, load_text (argv_filename argv) w = Raise e ↔
          ∃ f, argv !! 1%nat = Some f ∧ f ≠ "" ∧ path_exists w f = true
               ∧ read_chars w f = None ∧ e = OSError f)
  ∧ (∀ tk e, load_text (argv_filename argv) w = Raise e →
       startup_with tk rt argv w = Raise e)
  ∧ (∀ tk st, startup_with tk rt argv w = Ok st →
       filename st = argv_filename argv
       ∧ load_text (argv_filename argv) w = Ok (text st)
       ∧ current_lang st = detect_lang rt (argv_filename argv)
       ∧ lexer_for_with tk rt (current_lang st) = Ok (lexer st)
       ∧ current_eol st = "unix").
Proof.
  split; [|split; [|split]].
  - unfold startup_with. destruct (load_text _ w) as [t|e]; [|reflexivity].
    rewrite lexer_for_installed. destruct (get_lexer_by_name rt _); reflexivity.
  - intros e. unfold load_text, file_opened, argv_filename.
    destruct (1 <? List.length argv)%nat eqn:Hlen.
    + destruct (argv !! 1%nat) as [f|] eqn:Harg.
      * destruct (truthy (Some f)) eqn:Ht; simpl.
        -- apply truthy_Some in Ht. destruct (path_exists w f) eqn:Hex.
           ++ destruct (read_chars w f) as [chars|] eqn:Hrd.
              ** split; [discriminate|]. intros (f' & [= <-] & _ & _ & Hn & _).
                 congruence.
              ** split.
                 --- intros [= <-]. exists f. auto.
                 --- intros (f' & [= <-] & _ & _ & _ & ->). reflexivity.
           ++ split; [discriminate|]. intros (f' & [= <-] & _ & Hx & _). congruence.
        -- split; [discriminate|]. intros (f' & [= <-] & Hne & _).
           apply truthy_Some in Hne. congruence.
      * split; [discriminate|]. intros (f' & Hf' & _). discriminate.
    + split; [discriminate|]. intros (f' & Hf' & _).
      apply Nat.ltb_ge in Hlen. apply lookup_lt_Some in Hf'. lia.
  - intros tk e He. unfold startup_with. rewrite He. reflexivity.
  - intros tk st. unfold startup_with.
    destruct (load_text _ w) as [t|e]; [|discriminate].
    destruct (lexer_for_with tk rt _) as [lx|e] eqn:Hlx; [|discriminate].
    intros [= <-]. simpl. auto.
Qed.

(** ** What a save can touch *)

Lemma try_write_with_writes (tk : toolkit) (rt : runtime) (st : session)
    (wr : write_result) :
  file_writes (try_write_with tk rt st wr).1
  = match EOL_FORMATS !! current_eol st, wr with
    | Some eol, Written => [(default "" (filename st), serialize_with eol (text st))]
    | Some _, WriteFailed _ kept => [(default "" (filename st), kept)]
    | _, _ => []
    end.
Proof.
  unfold try_write_with, report_error.
  destruct (EOL_FORMATS !! current_eol st); [|reflexivity].
  destruct wr; [destruct (run_message_dialog tk "Saved" _)|..]; reflexivity.
Qed.

Lemma key_ctrl_o_with_no_exit (tk : toolkit) (rt : runtime) (st : session)
    (sa ec : option string) (wr : write_result) :
  AppExit ∉ calls (key_ctrl_o_with tk rt st sa ec wr).
Proof.
  unfold key_ctrl_o_with, save_body_with, try_write_with, report_error.
  destruct (negb (truthy (filename st)));
    [destruct (run_input_dialog tk "Save As" sa) as [fname|e];
       [destruct (negb (truthy fname))|]|];
    try destruct (run_input_dialog tk "Select Line Ending" ec) as [ec'|e'];
    try destruct (EOL_FORMATS !! _);
    try (destruct wr; [destruct (run_message_dialog tk "Saved" _)|..]);
    simpl; intros Hin;
    repeat (apply elem_of_cons in Hin as [Hin|Hin]; [discriminate|]);
    apply elem_of_nil in Hin; contradiction.
Qed.

Lemma key_ctrl_o_with_valid (tk : toolkit) (rt : runtime) (st : session)
    (sa ec : option string) (wr : write_result) :
  eol_valid st → eol_valid (final (key_ctrl_o_with tk rt st sa ec wr)).
Proof.
  intros Hv. unfold key_ctrl_o_with, save_body_with.
  destruct (negb (truthy (filename st)));
    [destruct (run_input_dialog tk "Save As" sa) as [fname|e];
       [destruct (negb (truthy fname))|]|];
    try destruct (run_input_dialog tk "Select Line Ending" ec) as [ec'|e'];
    simpl; try exact Hv; apply choose_eol_valid; exact Hv.
Qed.

(** X4: what one run of the save handler can touch, whatever the dialogs
    and the write do.  It touches at most one file and never exits.  A
    file is touched only after the line-ending dialog has returned, and it
    is the file the session is then bound to, a non-empty name: the name
    bound before, or else the reply of the "Save As" dialog.  It is left
    with the text in the terminator of the mode the session is then in
    when the write succeeds, and with whatever had reached it when the
    write fails after the file was opened.  With the libraries as they are
    nothing is touched. *)
Theorem save_touches_one_file (tk : toolkit) (rt : runtime) (st : session)
    (sa ec : option string) (wr : write_result) :
  let o := key_ctrl_o_with tk rt st sa ec wr in
  (List.length (file_writes (calls o)) ≤ 1)%nat
  ∧ (∀ p c, (p, c) ∈ file_writes (calls o) →
       p ≠ "" ∧ filename (final o) = Some p ∧ asked_target tk st sa = Ok (Some p)
       ∧ (∃ ec', run_input_dialog tk "Select Line Ending" ec = Ok ec'
                 ∧ current_eol (final o) = current_eol (choose_eol rt ec' st))
       ∧ ((wr = Written ∧ serialize (text st) (current_eol (final o)) = Some c)
          ∨ ∃ msg, wr = WriteFailed msg c))
  ∧ (∀ msg, wr = OpenFailed msg → file_writes (calls o) = [])
  ∧ (AppExit ∉ calls o)
  ∧ file_writes (calls (key_ctrl_o_with installed_toolkit rt st sa ec wr)) = [].
Proof.
  intros o. unfold o.
  assert ((∃ target ec', asked_target tk st sa = Ok (Some target) ∧ target ≠ ""
             ∧ run_input_dialog tk "Select Line Ending" ec = Ok ec')
          ∨ file_writes (calls (key_ctrl_o_with tk rt st sa ec wr)) = []) as [Hat|Hnone].
  { destruct (asked_target tk st sa) as [[t|]|e] eqn:Htg.
    - destruct (decide (t = "")) as [->|Hne].
      + right. apply key_ctrl_o_with_before_write. left.
        intros target H. rewrite Htg in H. injection H as <-. reflexivity.
      + destruct (run_input_dialog tk "Select Line Ending" ec) as [ec'|e'] eqn:Hec.
        * left. exists t, ec'. auto.
        * right. apply key_ctrl_o_with_before_write. right. exists e'. exact Hec.
    - right. apply key_ctrl_o_with_before_write. left.
      intros target H. rewrite Htg in H. discriminate H.
    - right. apply key_ctrl_o_with_before_write. left.
      intros target H. rewrite Htg in H. discriminate H. }
  - destruct Hat as (target & ec' & Htg & Hne & Hec).
    destruct (key_ctrl_o_with_at_write tk rt st sa ec ec' wr target Htg Hne Hec)
      as (pre & Hpre & Heq).
    assert (file_writes (calls (key_ctrl_o_with tk rt st sa ec wr))
            = file_writes (try_write_with tk rt
                (choose_eol rt ec' (set_filename (Some target) st)) wr).1) as Hw.
    { rewrite Heq. cbn [calls]. rewrite file_writes_app.
      destruct Hpre as [-> | ->]; reflexivity. }
    assert (filename (choose_eol rt ec' (set_filename (Some target) st)) = Some target)
      as Hf by (destruct (choose_eol_frame rt ec' (set_filename (Some target) st))
                  as (-> & _); reflexivity).
    assert (text (choose_eol rt ec' (set_filename (Some target) st)) = text st)
      as Ht by (destruct (choose_eol_frame rt ec' (set_filename (Some target) st))
                  as (_ & -> & _); reflexivity).
    rewrite Hw, try_write_with_writes, Hf, Ht.
    split; [|split; [|split; [|split]]].
    + destruct (EOL_FORMATS !! _); [destruct wr|]; simpl; lia.
    + intros p c Hin. rewrite Heq. cbn [final]. rewrite Hf.
      assert (p = target ∧
              ((wr = Written
                ∧ serialize (text st)
                    (current_eol (choose_eol rt ec' (set_filename (Some target) st)))
                  = Some c)
               ∨ ∃ msg, wr = WriteFailed msg c)) as [-> Hc].
      { unfold serialize.
        destruct (EOL_FORMATS !! _) as [eol|]; [destruct wr|]; simpl in Hin |- *.
        - apply list_elem_of_singleton in Hin. injection Hin as -> ->. auto.
        - apply elem_of_nil in Hin. contradiction.
        - apply list_elem_of_singleton in Hin. injection Hin as -> ->. eauto.
        - apply elem_of_nil in Hin. contradiction. }
      split; [exact Hne|]. split; [reflexivity|]. split; [exact Htg|].
      split; [|exact Hc].
      exists ec'. split; [exact Hec|]. apply choose_eol_set_filename.
    + intros msg ->. destruct (EOL_FORMATS !! _); reflexivity.
    + apply key_ctrl_o_with_no_exit.
    + rewrite key_ctrl_o_installed. reflexivity.
  - rewrite Hnone. split; [simpl; lia|]. split; [|split; [|split]].
    + intros p c Hin. apply elem_of_nil in Hin. contradiction.
    + reflexivity.
    + apply key_ctrl_o_with_no_exit.
    + rewrite key_ctrl_o_installed. reflexivity.
Qed.

(** ** Where the handlers end *)


(** ** The invariants, handler by handler *)

(** X18: the two invariants of the session hold handler by handler,
    whatever the libraries do: a handler that ends early, by a return or
    by an exception, leaves the language a member of [SUPPORTED_LANGS] and
    the EOL mode a key of [EOL_FORMATS], as does one that runs to its
    end. *)
Theorem handlers_keep_invariants (tk : toolkit) (rt : runtime) (st : session) :
  lang_supported st → eol_valid st →
  (∀ reply, lang_supported (final (key_alt_l_with tk rt st reply))
            ∧ eol_valid (final (key_alt_l_with tk rt st reply)))
  ∧ (∀ sa ec wr, lang_supported (final (key_ctrl_o_with tk rt st sa ec wr))
                 ∧ eol_valid (final (key_ctrl_o_with tk rt st sa ec wr)))
  ∧ (∀ flag ans sa ec wr,
       lang_supported (final (key_ctrl_x_with tk rt st flag ans sa ec wr))
       ∧ eol_valid (final (key_ctrl_x_with tk rt st flag ans sa ec wr))).
Proof.
  intros Hl Hv.
  assert (∀ sa ec wr, lang_supported (final (key_ctrl_o_with tk rt st sa ec wr))
                      ∧ eol_valid (final (key_ctrl_o_with tk rt st sa ec wr))) as Hsave.
  { intros sa ec wr. split; [|apply key_ctrl_o_with_valid; exact Hv].
    unfold lang_supported.
    destruct (key_ctrl_o_with_frame tk rt st sa ec wr) as (_ & _ & ->). exact Hl. }
  split; [|split; [exact Hsave|]].
  - intros reply. split.
    + unfold key_alt_l_with.
      destruct (run_input_dialog tk "Language" reply) as [choice|e]; simpl; [|exact Hl].
      destruct (negb (truthy choice)); simpl; [exact Hl|].
      destruct (in_supported _) eqn:Hin; simpl; [|exact Hl].
      destruct (lexer_for_with tk rt _); simpl; [|exact Hl].
      apply in_supported_true in Hin. exact Hin.
    + unfold eol_valid.
      destruct (key_alt_l_with_frame tk rt st reply) as (_ & _ & ->). exact Hv.
  - intros flag ans sa ec wr. unfold key_ctrl_x_with.
    destruct (get_is_dirty tk flag) as [[|]|e]; simpl; [|auto|auto].
    destruct (run_input_dialog tk "Exit" ans) as [a|e]; simpl; [|auto].
    destruct (answers_yes rt a); simpl; [|auto].
    destruct (raised (key_ctrl_o_with tk rt st sa ec wr)); simpl; apply Hsave.
Qed.

Lemma handlers_keep_invariants_witness :
  lang_supported
    (final (key_alt_l_with assumed_toolkit ascii_runtime st_python (Some "Rust")))
  ∧ eol_valid
      (final (key_alt_l_with assumed_toolkit ascii_runtime st_python (Some "Rust"))).
Proof.
  eapply (handlers_keep_invariants assumed_toolkit ascii_runtime st_python).
  - apply (bool_decide_unpack _). vm_compute. exact I.
  - exists str_LF. reflexivity.
Defined.
